(** * Excel data consolidator: a shallow embedding of [excel_consolidator.py]

    The engine class [ExcelConsolidator] scans a directory tree for
    spreadsheet files, reads two columns (key, value) of each file's first
    sheet, and assembles one table: a header of all keys in sorted order and
    one row per file.

    Modelling conventions.
    - A Python [str] is a Rocq [string]; each character stands for the code
      point of the same number, so the model covers the strings over
      U+0000..U+00FF.  [lower] and [isspace] are Python's on that range, and
      string comparison is by code point, as in Python.
    - [self.all_keys] (a Python [set]) is a [gset string]; the order in which
      Python iterates over the set is a parameter of the world ([set_iter]).
    - [data_dict] and [self.file_order] are only looked up by key: [gmap]s.
      [self.file_data] is iterated with [.items()], so it is an insertion
      ordered association list with Python's assignment semantics.
    - [pd.read_excel], the directory contents and [_save_excel] are the
      outside world; they are gathered in the record [World].
    - The instance attributes are threaded explicitly: every method takes the
      engine state and returns the new one. *)

From Stdlib Require Import Ascii String.
From stdpp Require Import gmap strings list fin_maps sorting.

Local Open Scope string_scope.
Local Open Scope list_scope.
Set Warnings "-register-all,-clear-no-such-hyp".

(** ** Python string operations *)

Module PyStr.

(** [str.isspace] for one character (code points below 256). *)
Definition isspace (c : ascii) : bool :=
  let n := nat_of_ascii c in
  (((9 <=? n) && (n <=? 13)) || ((28 <=? n) && (n <=? 32))
   || (n =? 133) || (n =? 160))%nat.

(** [str.lower] for one character: A-Z, and the Latin-1 capitals
    U+00C0..U+00DE without the multiplication sign U+00D7. *)
Definition lower_char (c : ascii) : ascii :=
  let n := nat_of_ascii c in
  if (((65 <=? n) && (n <=? 90))
      || ((192 <=? n) && (n <=? 222) && negb (n =? 215)))%nat
  then ascii_of_nat (n + 32) else c.

Fixpoint lower (s : string) : string :=
  match s with
  | EmptyString => EmptyString
  | String c s' => String (lower_char c) (lower s')
  end.

(** [s.startswith(p)] *)
Fixpoint startswith (s p : string) {struct p} : bool :=
  match p with
  | EmptyString => true
  | String a p' =>
      match s with
      | EmptyString => false
      | String b s' => Ascii.eqb a b && startswith s' p'
      end
  end.

(** [s.endswith(p)] *)
Definition endswith (s p : string) : bool :=
  startswith (String.rev s) (String.rev p).

(** [s.endswith((p1, p2, ...))]: a tuple of suffixes. *)
Definition endswith_any (s : string) (ps : list string) : bool :=
  existsb (endswith s) ps.

Fixpoint lstrip (s : string) : string :=
  match s with
  | EmptyString => EmptyString
  | String c s' => if isspace c then lstrip s' else s
  end.

Definition rstrip (s : string) : string :=
  String.rev (lstrip (String.rev s)).

(** [s.strip()] *)
Definition strip (s : string) : string := rstrip (lstrip s).

(** [sorted(xs)] on strings: ascending in Python's string order, which
    is [String.le] (code point by code point, a proper prefix first). *)
Definition sorted (xs : list string) : list string :=
  merge_sort String.le xs.

End PyStr.

(** ** Paths and the directory tree *)

(** A path is the list of its components; [Path(root) / file] appends one. *)
Definition Path := list string.

Definition path_join (root : Path) (name : string) : Path := root ++ [name].

(** [os.sep] *)
Definition os_sep : string := "/".

(** [str(path)] *)
Definition path_str (p : Path) : string := String.concat os_sep p.

(** [file_path.relative_to(base)]: [None] stands for [ValueError]. *)
Fixpoint relative_to (file_path base : Path) : option Path :=
  match base with
  | [] => Some file_path
  | b :: base' =>
      match file_path with
      | [] => None
      | c :: file_path' =>
          if decide (b = c) then relative_to file_path' base' else None
      end
  end.

(** What lies below a directory: plain files and sub-directories, by name,
    in the order in which the operating system lists them. *)
Inductive Entry : Type :=
| EFile : Entry
| EDir : list (string * Entry) -> Entry.

Definition is_dir (e : Entry) : bool :=
  match e with EDir _ => true | EFile => false end.

Definition dirnames (es : list (string * Entry)) : list string :=
  map fst (filter (fun ne => is_dir ne.2 = true) es).

Definition filenames (es : list (string * Entry)) : list string :=
  map fst (filter (fun ne => is_dir ne.2 = false) es).

(** [os.walk(top)], top-down: the triple of the directory itself, then the
    walk of each sub-directory.  Walking something that is not a directory
    yields nothing (the listing error is ignored by [os.walk]). *)
Fixpoint os_walk (top : Path) (e : Entry) : list (Path * list string * list string) :=
  match e with
  | EFile => []
  | EDir es =>
      (top, dirnames es, filenames es)
        :: flat_map (fun ne => os_walk (path_join top ne.1) ne.2) es
  end.

(** ** The outside world *)

(** What [pd.read_excel(..., header=None, usecols=[0, 1], dtype=str)]
    returns: the rows of the first sheet, two cells each; [None] is a cell
    for which [pd.notna] is false. *)
Definition Cell := option string.
Definition Sheet := list (Cell * Cell).

(** [pd.DataFrame(data, columns=...)] *)
Record DataFrame := mkDataFrame {
  df_columns : list string;
  df_data : list (list string)
}.

(** The constructor raises when a row does not have one cell per column. *)
Definition pd_DataFrame (data : list (list string)) (columns : list string)
  : option DataFrame :=
  if forallb (fun r => length r =? length columns)%nat data
  then Some (mkDataFrame columns data) else None.

(** The assembled table, header first. *)
Definition table_of (df : DataFrame) : list (list string) :=
  df_columns df :: df_data df.

(** An iteration order for Python sets: some enumeration of the elements. *)
Record SetIter := mkSetIter {
  iter_of :> gset string -> list string;
  iter_perm : forall s, iter_of s ≡ₚ elements s
}.

Record World := mkWorld {
  (* the directory found at [data_path] *)
  fs_root : Entry;
  (* [pd.read_excel] on a path: [None] when it raises *)
  read_excel : Path -> option Sheet;
  (* whether [_save_excel] completes ([false]: it raises) *)
  save_excel_ok : DataFrame -> string -> bool;
  (* the order in which this run iterates over a set of strings *)
  set_iter : SetIter
}.

(** ** The engine *)

(** [self.file_data]: a Python dict whose iteration order matters. *)
Definition Dict (V : Type) := list (string * V).

(** [d[k] = v]: an existing key keeps its position. *)
Fixpoint dict_set {V} (k : string) (v : V) (d : Dict V) : Dict V :=
  match d with
  | [] => [(k, v)]
  | (k', v') :: d' =>
      if decide (k = k') then (k, v) :: d' else (k', v') :: dict_set k v d'
  end.

Record ExcelConsolidator := mkEngine {
  data_path : Path;
  all_keys : gset string;
  file_data : Dict (gmap string string);
  file_order : gmap string (list string)
}.

(** [__init__], after [_validate_path] has accepted the directory. *)
Definition init (data_path : Path) : ExcelConsolidator :=
  mkEngine data_path ∅ [] ∅.

Definition extensions : list string := [".xlsx"; ".xls"; ".xlsm"].

(** The test of the inner loop of [_scan_files] on one file name. *)
Definition is_excel_name (file : string) : bool :=
  PyStr.endswith_any (PyStr.lower file) extensions
  && negb (PyStr.startswith file "~$").

(** [_scan_files]: the two nested loops over the walk, in walk order. *)
Definition _scan_files (w : World) (self : ExcelConsolidator) : list Path :=
  flat_map
    (fun '(root, _, files) =>
       flat_map
         (fun file =>
            if PyStr.endswith_any (PyStr.lower file) extensions then
              let full_path := path_join root file in
              if negb (PyStr.startswith file "~$") then [full_path] else []
            else [])
         files)
    (os_walk (data_path self) (fs_root w)).

(** [_get_relative_path]: the path below the root as a string, or the
    whole path when the file is not below the root. *)
Definition _get_relative_path (self : ExcelConsolidator) (file_path : Path)
  : string :=
  match relative_to file_path (data_path self) with
  | Some rel => path_str rel
  | None => path_str file_path
  end.

(** One iteration of the row loop of [_read_excel], on the three objects
    it updates: [data_dict], [key_order] and [self.all_keys]. *)
Definition LoopState : Type := gmap string string * list string * gset string.

Definition norm_key (c : Cell) : string :=
  match c with Some s => PyStr.strip s | None => "" end.

Definition norm_value (c : Cell) : string :=
  match c with Some s => s | None => "" end.

Definition row_step (st : LoopState) (row : Cell * Cell) : LoopState :=
  let '(data_dict, key_order, keys) := st in
  let key := norm_key row.1 in
  let value := norm_value row.2 in
  if decide (key = "") then st
  else
    match data_dict !! key with
    | Some _ => st
    | None => (<[key := value]> data_dict, key_order ++ [key], {[key]} ∪ keys)
    end.

(** [_read_excel]: the engine after the call and the returned mapping.
    Inside the [try] block only [pd.read_excel] can raise (the loop works
    on the strings of a two-column frame), so the handler is reached with
    the engine as it was, and returns the empty dict. *)
Definition _read_excel (w : World) (self : ExcelConsolidator) (file_path : Path)
  : ExcelConsolidator * gmap string string :=
  let relative_path := _get_relative_path self file_path in
  match read_excel w file_path with
  | Some df =>
      let '(data_dict, key_order, keys) :=
        foldl row_step (∅, [], all_keys self) df in
      (mkEngine (data_path self) keys (file_data self)
                (<[relative_path := key_order]> (file_order self)),
       data_dict)
  | None => (self, ∅)
  end.

(** The body of the reading loop of [consolidate] for one file. *)
Definition read_one (w : World) (self : ExcelConsolidator) (file : Path)
  : ExcelConsolidator :=
  let relative_path := _get_relative_path self file in
  let '(self', data) := _read_excel w self file in
  mkEngine (data_path self') (all_keys self')
           (dict_set relative_path data (file_data self'))
           (file_order self').

(** The body of the row loop of [consolidate] for one item of
    [self.file_data]; [None] stands for the [KeyError] of [value_map[key]]. *)
Definition build_row (self : ExcelConsolidator) (sorted_keys : list string)
    (relative_path : string) (data : gmap string string)
  : option (list string) :=
  let file_keys := default [] (file_order self !! relative_path) in
  let value_map : gmap string string :=
    foldl (fun vm k => <[k := default "" (data !! k)]> vm) ∅ file_keys in
  let value_map :=
    foldl (fun vm key =>
             match vm !! key with
             | Some _ => vm
             | None => <[key := default "" (data !! key)]> vm
             end) value_map sorted_keys in
  cells ← mapM (fun key => value_map !! key) sorted_keys;
  Some (relative_path :: cells).

(** What a call of [consolidate] leaves behind: the engine, the table given
    to [_save_excel] (if the call got that far) and the returned boolean. *)
Record Outcome := mkOutcome {
  engine : ExcelConsolidator;
  exported : option DataFrame;
  returned : bool
}.

(** [consolidate] from the point where [excel_files] is known.  Every
    exception inside the [try] block ends in [return False]. *)
Definition consolidate_files (w : World) (self : ExcelConsolidator)
    (excel_files : list Path) (output_file : string) : Outcome :=
  match excel_files with
  | [] => mkOutcome self None false
  | _ =>
      let self := foldl (read_one w) self excel_files in
      if decide (all_keys self = ∅) then mkOutcome self None false
      else
        let sorted_keys := PyStr.sorted (set_iter w (all_keys self)) in
        let header_row := "Source File" :: sorted_keys in
        match mapM (fun '(relative_path, data) =>
                      build_row self sorted_keys relative_path data)
                   (file_data self) with
        | None => mkOutcome self None false
        | Some rows =>
            let data_rows := header_row :: rows in
            match pd_DataFrame (tail data_rows) (hd [] data_rows) with
            | None => mkOutcome self None false
            | Some consolidated_df =>
                mkOutcome self (Some consolidated_df)
                          (save_excel_ok w consolidated_df output_file)
            end
        end
  end.

Definition consolidate (w : World) (self : ExcelConsolidator)
    (output_file : string) : Outcome :=
  consolidate_files w self (_scan_files w self) output_file.

(** ** Sample runs *)

Module Samples.

(** Python's own iteration order is not modelled; the samples iterate a
    set in the order of [elements]. *)
Definition elements_iter : SetIter :=
  mkSetIter elements (fun s => reflexivity (elements s)).

Fixpoint sheet_at (sheets : list (Path * Sheet)) (p : Path) : option Sheet :=
  match sheets with
  | [] => None
  | (q, sheet) :: sheets' =>
      if decide (q = p) then Some sheet else sheet_at sheets' p
  end.

(** A world given by its tree and the sheets of its readable files;
    every other path is unreadable, and the export always completes. *)
Definition world (root : Entry) (sheets : list (Path * Sheet)) : World :=
  mkWorld root (sheet_at sheets) (fun _ _ => true) elements_iter.

Definition row (k v : string) : Cell * Cell := (Some k, Some v).

(** Scenario B of the specification: keys {A, B} and {B, C}. *)
Definition world_b : World :=
  world (EDir [("one.xlsx", EFile); ("two.xlsx", EFile)])
    [(["data"; "one.xlsx"], [row "A" "1"; row "B" "2"]);
     (["data"; "two.xlsx"], [row "B" "3"; row "C" "4"])].

Definition table_b : DataFrame :=
  mkDataFrame ["Source File"; "A"; "B"; "C"]
              [["one.xlsx"; "1"; "2"; ""]; ["two.xlsx"; ""; "3"; "4"]].

(** Scenario C: the key X twice, with values 1 then 2. *)
Definition sheet_c : Sheet := [row "X" "1"; row "X" "2"].
Definition world_c : World :=
  world (EDir [("dup.xlsx", EFile)]) [(["data"; "dup.xlsx"], sheet_c)].

Definition table_c : DataFrame :=
  mkDataFrame ["Source File"; "X"] [["dup.xlsx"; "1"]].

(** Scenario E: an unreadable file next to a valid one, in a
    sub-directory, with a lock file and a text file that are not
    spreadsheets to read. *)
Definition world_e : World :=
  world (EDir [("bad.xlsx", EFile);
               ("sub", EDir [("good.XLS", EFile); ("~$good.XLS", EFile);
                             ("notes.txt", EFile)])])
    [(["data"; "sub"; "good.XLS"],
      [row " Name " "Alice"; (None, Some "lost"); (Some "Age", None)])].

Definition table_e : DataFrame :=
  mkDataFrame ["Source File"; "Age"; "Name"]
              [["bad.xlsx"; ""; ""]; ["sub/good.XLS"; ""; "Alice"]].

(** Scenario D: no spreadsheet at all. *)
Definition world_d : World :=
  world (EDir [("readme.txt", EFile); ("empty", EDir [])]) [].

End Samples.

(** ** Construction and summary *)

(** The two exceptions of [_validate_path]. *)
Inductive PathError : Type :=
| FileNotFoundError
| NotADirectoryError.

(** [_validate_path], on what the file system holds at [self.data_path]
    ([None]: nothing exists there); [None] as a result is a normal return. *)
Definition _validate_path (found : option Entry) : option PathError :=
  match found with
  | None => Some FileNotFoundError
  | Some EFile => Some NotADirectoryError
  | Some (EDir _) => None
  end.

(** [ExcelConsolidator(data_path)]: the attributes are set, then the path
    is validated. *)
Definition new_engine (found : option Entry) (data_path : Path)
  : PathError + ExcelConsolidator :=
  let self := mkEngine data_path ∅ [] ∅ in
  match _validate_path found with
  | Some e => inl e
  | None => inr self
  end.

(** The dict returned by [get_summary]. *)
Record Summary := mkSummary {
  total_files : nat;
  total_keys : nat;
  file_names : list string
}.

Definition get_summary (self : ExcelConsolidator) : Summary :=
  mkSummary (length (file_data self)) (size (all_keys self))
            (map fst (file_data self)).

(** ** The front end *)

(** The message box that [start_consolidation] of the graphical front
    end ends with. *)
Inductive Dialog : Type :=
| MissingInput                       (* showerror: a field is empty *)
| NoExcelFiles                       (* showwarning: no file found *)
| NoValidData                        (* showwarning: no key found *)
| Completed (total_files total_keys : nat) (output_file : string)
| ConsolidationFailed                (* showerror: consolidate returned False *)
| FatalError (e : PathError).        (* showerror: an exception was caught *)

(** [ExcelConsolidatorApp.start_consolidation]: the engine calls it makes
    and the dialog it shows.  The progress bar and status line updates
    are left out, and the widget calls are taken to return normally, so
    that the only exception reaching the handler is the constructor's.
    [found] is what the file system holds at the input folder, and
    [to_path] stands for the construction of a path from a string. *)
Definition start_consolidation (found : option Entry)
    (sheets : Path -> option Sheet) (save : DataFrame -> string -> bool)
    (it : SetIter) (to_path : string -> Path)
    (input_folder output_file : string) : Dialog :=
  if decide (input_folder = "" \/ output_file = "") then MissingInput
  else
    match new_engine found (to_path input_folder), found with
    | inl e, _ => FatalError e
    | inr _, None => FatalError FileNotFoundError
    | inr consolidator, Some root =>
        let w := mkWorld root sheets save it in
        let excel_files := _scan_files w consolidator in
        match excel_files with
        | [] => NoExcelFiles
        | _ =>
            let consolidator := foldl (read_one w) consolidator excel_files in
            if decide (all_keys consolidator = ∅) then NoValidData
            else
              let o := consolidate w consolidator output_file in
              if returned o then
                let summary := get_summary (engine o) in
                Completed (total_files summary) (total_keys summary)
                          output_file
              else ConsolidationFailed
        end
    end.

(** ** Trees as a file system has them *)

(** No two entries of a directory share a name. *)
Fixpoint unique_names (e : Entry) : bool :=
  match e with
  | EFile => true
  | EDir es =>
      bool_decide (NoDup (map fst es))
      && forallb (fun ne => unique_names ne.2) es
  end.

(** The string has no path separator. *)
Fixpoint sep_free (s : string) : bool :=
  match s with
  | EmptyString => true
  | String c s' => negb (Ascii.eqb c "/") && sep_free s'
  end.

(** No name in the tree has a path separator. *)
Fixpoint sep_free_names (e : Entry) : bool :=
  match e with
  | EFile => true
  | EDir es => forallb (fun ne => sep_free ne.1 && sep_free_names ne.2) es
  end.

(** ** Notions used in the statements *)

(** Strings made of white space only. *)
Fixpoint all_space (s : string) : bool :=
  match s with
  | EmptyString => true
  | String c s' => PyStr.isspace c && all_space s'
  end.

(** The order of two characters: that of their code points. *)
Definition char_lt (a b : ascii) : Prop := (nat_of_ascii a < nat_of_ascii b)%nat.

(** The components of the loop state. *)
Definition loop_dict (st : LoopState) : gmap string string := st.1.1.
Definition loop_order (st : LoopState) : list string := st.1.2.
Definition loop_keys (st : LoopState) : gset string := st.2.

(** The Record of a sheet: the mapping and the ordered key list that the
    loop builds, started on empty ones. *)
Definition extract (df : Sheet) : LoopState := foldl row_step (∅, [], ∅) df.

(** The Record of a file: empty when the file cannot be read. *)
Definition record_of (w : World) (file : Path) : gmap string string * list string :=
  match read_excel w file with
  | Some df => (loop_dict (extract df), loop_order (extract df))
  | None => (∅, [])
  end.

(** Invariants of the loop when it starts on an empty mapping. *)
Definition loop_inv (st : LoopState) : Prop :=
  loop_keys st = dom (loop_dict st)
  /\ NoDup (loop_order st)
  /\ (forall k, k ∈ loop_order st <-> k ∈ dom (loop_dict st))
  /\ "" ∉ dom (loop_dict st).

(** The cell of the table for a file's mapping and a key. *)
Definition cell (data : gmap string string) (key : string) : string :=
  match data !! key with Some value => value | None => "" end.

(** Every binding of a value map is the file's cell for that key. *)
Definition cells_of (data vm : gmap string string) : Prop :=
  forall k v, vm !! k = Some v -> v = cell data k.

(** The data rows of the table for a list of keys and the engine's files. *)
Definition rows_of (ks : list string) (fd : Dict (gmap string string))
  : list (list string) :=
  map (fun item => item.1 :: map (cell item.2) ks) fd.

(** [dir_at e rel es]: following the names [rel] down from [e] leads to a
    directory whose listing is [es]. *)
Inductive dir_at : Entry -> Path -> list (string * Entry) -> Prop :=
| dir_here es : dir_at (EDir es) [] es
| dir_below es name sub rel es' :
    (name, sub) ∈ es -> dir_at sub rel es' -> dir_at (EDir es) (name :: rel) es'.

(** [name] is a plain file of the directory found at [dir] below [e]. *)
Definition file_at (e : Entry) (dir : Path) (name : string) : Prop :=
  exists es, dir_at e dir es /\ (name, EFile) ∈ es.

(** The files [_scan_files] keeps from one walk. *)
Definition scan_walk (walk : list (Path * list string * list string))
  : list Path :=
  flat_map (fun t => map (path_join t.1.1) (filter (fun f => is_excel_name f = true) t.2))
           walk.

(** * Properties *)

(** ** Strings *)

Section string_facts.

Implicit Types s t p : string.

Lemma str_app_cons a s t : String a s +:+ t = String a (s +:+ t).
Proof. reflexivity. Qed.

Lemma str_app_nil_l s : "" +:+ s = s.
Proof. reflexivity. Qed.

Lemma str_app_nil_r s : s +:+ "" = s.
Proof.
  induction s as [|a s IH]; [done|]. by rewrite str_app_cons, IH.
Qed.

Lemma str_app_assoc s t p : (s +:+ t) +:+ p = s +:+ (t +:+ p).
Proof.
  induction s as [|a s IH]; [done|]. by rewrite !str_app_cons, IH.
Qed.

Lemma rev_app_spec s t : String.rev_app s t = String.rev s +:+ t.
Proof.
  unfold String.rev. revert t.
  induction s as [|a s IH]; intros t; simpl; [done|].
  rewrite (IH (String a "")), (IH (String a t)).
  by rewrite str_app_assoc.
Qed.

Lemma rev_cons a s : String.rev (String a s) = String.rev s +:+ String a "".
Proof. unfold String.rev at 1. simpl. apply rev_app_spec. Qed.

Lemma rev_app_distr s t : String.rev (s +:+ t) = String.rev t +:+ String.rev s.
Proof.
  induction s as [|a s IH].
  - by rewrite str_app_nil_l, str_app_nil_r.
  - by rewrite str_app_cons, !rev_cons, IH, str_app_assoc.
Qed.

Lemma rev_involutive s : String.rev (String.rev s) = s.
Proof.
  induction s as [|a s IH]; [done|].
  by rewrite rev_cons, rev_app_distr, IH.
Qed.

Lemma startswith_spec s p :
  PyStr.startswith s p = true <-> exists t, s = p +:+ t.
Proof.
  revert s. induction p as [|a p IH]; intros s; simpl.
  - split; [intros _; by exists s | done].
  - destruct s as [|b s].
    + split; [done | intros [t Ht]; discriminate Ht].
    + rewrite andb_true_iff, Ascii.eqb_eq, IH. split.
      * intros [-> [t ->]]. by exists t.
      * intros [t Ht]. injection Ht as -> ->. eauto.
Qed.

Lemma endswith_spec s p :
  PyStr.endswith s p = true <-> exists t, s = t +:+ p.
Proof.
  unfold PyStr.endswith. rewrite startswith_spec. split.
  - intros [t Ht]. exists (String.rev t).
    by rewrite <- (rev_involutive s), Ht, rev_app_distr, rev_involutive.
  - intros [t ->]. exists (String.rev t). apply rev_app_distr.
Qed.

Lemma endswith_any_spec s ps :
  PyStr.endswith_any s ps = true <->
  exists p t, In p ps /\ s = t +:+ p.
Proof.
  unfold PyStr.endswith_any. rewrite existsb_exists. split.
  - intros [p [Hp [t Ht]%endswith_spec]]. eauto.
  - intros (p & t & Hp & Ht). exists p. split; [done|].
    apply endswith_spec. eauto.
Qed.

Lemma all_space_app s t :
  all_space (s +:+ t) = all_space s && all_space t.
Proof.
  induction s as [|a s IH]; simpl; [done|].
  by rewrite IH, andb_assoc.
Qed.

Lemma all_space_rev s : all_space (String.rev s) = all_space s.
Proof.
  induction s as [|a s IH]; [done|].
  rewrite rev_cons, all_space_app, IH. simpl.
  rewrite andb_true_r. apply andb_comm.
Qed.

Lemma lstrip_spec s :
  exists pre, s = pre +:+ PyStr.lstrip s /\ all_space pre = true.
Proof.
  induction s as [|a s (pre & Hs & Hpre)]; simpl.
  - by exists "".
  - destruct (PyStr.isspace a) eqn:Ha.
    + exists (String a pre). simpl. rewrite Ha, Hpre, str_app_cons.
      by rewrite <- Hs.
    + by exists "".
Qed.

Lemma lstrip_head s c r :
  PyStr.lstrip s = String c r -> PyStr.isspace c = false.
Proof.
  induction s as [|a s IH]; simpl; [done|].
  destruct (PyStr.isspace a) eqn:Ha; [done|]. congruence.
Qed.

Lemma rstrip_spec s :
  exists post, s = PyStr.rstrip s +:+ post /\ all_space post = true.
Proof.
  unfold PyStr.rstrip.
  destruct (lstrip_spec (String.rev s)) as (pre & Hs & Hpre).
  exists (String.rev pre). split; [|by rewrite all_space_rev].
  by rewrite <- rev_app_distr, <- Hs, rev_involutive.
Qed.

Lemma rstrip_last s r c :
  PyStr.rstrip s = r +:+ String c "" -> PyStr.isspace c = false.
Proof.
  unfold PyStr.rstrip. intros H.
  apply (f_equal String.rev) in H.
  rewrite rev_involutive, rev_app_distr in H.
  by apply lstrip_head in H.
Qed.

(** [strip] removes a run of white space at either end, and only that:
    what is left neither starts nor ends with a white space character. *)
Lemma strip_spec s :
  (exists pre post,
      s = pre +:+ PyStr.strip s +:+ post
      /\ all_space pre = true /\ all_space post = true)
  /\ (forall c r, PyStr.strip s = String c r -> PyStr.isspace c = false)
  /\ (forall r c, PyStr.strip s = r +:+ String c "" -> PyStr.isspace c = false).
Proof.
  unfold PyStr.strip.
  destruct (lstrip_spec s) as (pre & Hs & Hpre).
  destruct (rstrip_spec (PyStr.lstrip s)) as (post & Hl & Hpost).
  split; [|split].
  - exists pre, post. by rewrite <- Hl.
  - intros c r Hc. rewrite Hc in Hl.
    destruct (PyStr.lstrip s) as [|c' r'] eqn:E; [done|].
    simpl in Hl. injection Hl as -> _. by apply lstrip_head in E.
  - intros r c. apply rstrip_last.
Qed.

Lemma strip_all_space s : all_space s = true -> PyStr.strip s = "".
Proof.
  intros Hs. unfold PyStr.strip.
  assert (PyStr.lstrip s = "") as ->; [|done].
  induction s as [|a s IH]; simpl in *; [done|].
  apply andb_true_iff in Hs as [-> Hs]. auto.
Qed.

End string_facts.

(** ** Sorting *)

Section sorted_facts.

Implicit Types xs ys : list string.

Lemma sorted_perm xs : PyStr.sorted xs ≡ₚ xs.
Proof. apply merge_sort_Permutation. Qed.

Lemma sorted_ascending xs : StronglySorted String.le (PyStr.sorted xs).
Proof. apply (StronglySorted_merge_sort String.le). Qed.

(** The result of sorting is determined by the elements alone: any
    ascending arrangement of them is the sorted list. *)
Lemma sorted_unique xs ys :
  ys ≡ₚ xs -> StronglySorted String.le ys -> ys = PyStr.sorted xs.
Proof.
  intros Hp Hs.
  apply (StronglySorted_unique String.le); [done | apply sorted_ascending |].
  by rewrite sorted_perm.
Qed.

Lemma sorted_proper xs ys : xs ≡ₚ ys -> PyStr.sorted xs = PyStr.sorted ys.
Proof.
  intros Hp. apply sorted_unique; [|apply sorted_ascending].
  by rewrite sorted_perm.
Qed.

Lemma sorted_elem xs k : k ∈ PyStr.sorted xs <-> k ∈ xs.
Proof. by rewrite sorted_perm. Qed.

Lemma sorted_NoDup xs : NoDup xs -> NoDup (PyStr.sorted xs).
Proof. by rewrite sorted_perm. Qed.

(** Without repetitions the order is strict. *)
Lemma sorted_strict xs :
  NoDup xs -> StronglySorted (strict String.le) (PyStr.sorted xs).
Proof.
  intros Hnd%sorted_NoDup. pose proof (sorted_ascending xs) as Hs.
  induction Hs as [|x l Hs IH Hx]; [constructor|].
  apply NoDup_cons in Hnd as [Hxl Hnd].
  constructor; [by apply IH|].
  apply Forall_forall. intros y Hy.
  split; [by eapply Forall_forall in Hx|].
  intros Hyx. assert (x = y) as ->; [|done].
  apply (anti_symm String.le); [|done]. by eapply Forall_forall in Hx.
Qed.

(** The sorted key list of a set does not depend on the order in which
    the set is iterated. *)
Lemma sorted_set_iter (it : SetIter) (K : gset string) :
  PyStr.sorted (it K) = PyStr.sorted (elements K).
Proof. apply sorted_proper, iter_perm. Qed.

Lemma sorted_set_elem (it : SetIter) (K : gset string) k :
  k ∈ PyStr.sorted (it K) <-> k ∈ K.
Proof. by rewrite sorted_elem, iter_perm, elem_of_elements. Qed.

Lemma sorted_set_NoDup (it : SetIter) (K : gset string) :
  NoDup (PyStr.sorted (it K)).
Proof. apply sorted_NoDup. rewrite iter_perm. apply NoDup_elements. Qed.

End sorted_facts.

(** ** The row loop of [_read_excel] *)

Section loop_facts.

Implicit Types (st : LoopState) (df : Sheet) (row : Cell * Cell).

Lemma loop_cons st row df :
  foldl row_step st (row :: df) = foldl row_step (row_step st row) df.
Proof. reflexivity. Qed.

Lemma row_step_skip st row : norm_key row.1 = "" -> row_step st row = st.
Proof.
  intros Hk. destruct st as [[d o] K]. unfold row_step.
  rewrite Hk. by rewrite decide_True.
Qed.

Lemma row_step_seen st row v :
  loop_dict st !! norm_key row.1 = Some v -> row_step st row = st.
Proof.
  destruct st as [[d o] K]. unfold loop_dict, row_step. simpl. intros ->.
  by case_decide.
Qed.

Lemma row_step_new st row :
  norm_key row.1 <> "" -> loop_dict st !! norm_key row.1 = None ->
  row_step st row =
    (<[norm_key row.1 := norm_value row.2]> (loop_dict st),
     loop_order st ++ [norm_key row.1],
     {[norm_key row.1]} ∪ loop_keys st).
Proof.
  destruct st as [[d o] K]. unfold loop_dict, loop_order, loop_keys, row_step.
  simpl. intros Hk ->. by rewrite decide_False.
Qed.

(** The three cases of one iteration. *)
Lemma row_step_cases st row :
  row_step st row = st
  \/ (norm_key row.1 <> "" /\ loop_dict st !! norm_key row.1 = None
      /\ row_step st row =
           (<[norm_key row.1 := norm_value row.2]> (loop_dict st),
            loop_order st ++ [norm_key row.1],
            {[norm_key row.1]} ∪ loop_keys st)).
Proof.
  destruct (decide (norm_key row.1 = "")) as [Hk|Hk];
    [left; by apply row_step_skip|].
  destruct (loop_dict st !! norm_key row.1) as [v|] eqn:Hd;
    [left; by eapply row_step_seen|].
  right. by rewrite row_step_new.
Qed.

(** A binding, once made, is never changed by later rows. *)
Lemma loop_keeps st df k v :
  loop_dict st !! k = Some v -> loop_dict (foldl row_step st df) !! k = Some v.
Proof.
  revert st. induction df as [|row df IH]; intros st Hk; simpl; [done|].
  apply IH.
  destruct (row_step_cases st row) as [->|(_ & Hnone & ->)]; [done|].
  unfold loop_dict at 1. simpl.
  rewrite lookup_insert_ne; [done|]. intros <-. congruence.
Qed.

(** Rows with other keys do not bind [k]. *)
Lemma loop_other st df k :
  Forall (fun row => norm_key row.1 <> k) df ->
  loop_dict (foldl row_step st df) !! k = loop_dict st !! k.
Proof.
  revert st. induction df as [|row df IH]; intros st Hdf; simpl; [done|].
  apply Forall_cons in Hdf as [Hrow Hdf]. rewrite IH by done.
  destruct (row_step_cases st row) as [->|(_ & _ & ->)]; [done|].
  unfold loop_dict at 1. simpl. by rewrite lookup_insert_ne.
Qed.

(** The mapping and the key list do not depend on the key universe the
    loop starts from, and the loop adds exactly the new keys to it. *)
Lemma loop_universe d o K df :
  foldl row_step (d, o, K) df =
    (loop_dict (foldl row_step (d, o, ∅) df),
     loop_order (foldl row_step (d, o, ∅) df),
     K ∪ loop_keys (foldl row_step (d, o, ∅) df)).
Proof.
  revert d o K. induction df as [|row df IH]; intros d o K.
  - unfold loop_keys. simpl. by rewrite union_empty_r_L.
  - rewrite !loop_cons.
    destruct (decide (norm_key row.1 = "")) as [Hk|Hk].
    { rewrite !row_step_skip by done. apply IH. }
    destruct (d !! norm_key row.1) as [v|] eqn:Hd.
    { rewrite !(row_step_seen _ _ v) by done. apply IH. }
    rewrite !row_step_new by done.
    unfold loop_dict at 1 2 3 4, loop_order at 1 2 3, loop_keys at 1 2 4.
    simpl.
    rewrite !(IH _ _ ({[norm_key row.1]} ∪ _)).
    unfold loop_dict, loop_order, loop_keys. simpl. f_equal.
    set_solver.
Qed.

Lemma loop_inv_step st row : loop_inv st -> loop_inv (row_step st row).
Proof.
  intros (Hkeys & Hnd & Hord & Hne).
  destruct (row_step_cases st row) as [->|(Hk & Hnone & ->)]; [done|].
  unfold loop_inv, loop_keys, loop_order, loop_dict. simpl.
  fold (loop_dict st) (loop_order st) (loop_keys st).
  apply not_elem_of_dom in Hnone.
  rewrite dom_insert_L. split; [|split; [|split]].
  - by rewrite Hkeys.
  - apply NoDup_app. split; [done|]. split; [|apply NoDup_singleton].
    intros k Hin ->%list_elem_of_singleton. by apply Hord in Hin.
  - intros k. rewrite elem_of_app, list_elem_of_singleton, Hord. set_solver.
  - set_solver.
Qed.

Lemma loop_inv_fold st df : loop_inv st -> loop_inv (foldl row_step st df).
Proof.
  revert st. induction df as [|row df IH]; intros st Hst; simpl; [done|].
  by apply IH, loop_inv_step.
Qed.

Lemma extract_inv df : loop_inv (extract df).
Proof.
  apply loop_inv_fold. unfold loop_inv, loop_keys, loop_order, loop_dict.
  simpl. rewrite dom_empty_L. split; [done|]. split; [constructor|].
  split; [|set_solver]. intros k. set_solver.
Qed.

End loop_facts.

(** ** The engine's dictionary of files *)

Section dict_facts.

Context {V : Type}.
Implicit Types (d : Dict V) (k : string) (v : V).

Lemma dict_set_fresh k v d : k ∉ d.*1 -> dict_set k v d = d ++ [(k, v)].
Proof.
  induction d as [|[k' v'] d IH]; csimpl; [done|].
  rewrite not_elem_of_cons. intros [Hk Hd].
  by rewrite decide_False, IH.
Qed.

(** Filling an empty dictionary with pairwise distinct keys lists the
    items in the order of the assignments. *)
Lemma dict_fill {A} (key : A -> string) (val : A -> V) (xs : list A) d :
  NoDup (d.*1 ++ map key xs) ->
  foldl (fun d x => dict_set (key x) (val x) d) d xs
  = d ++ map (fun x => (key x, val x)) xs.
Proof.
  revert d. induction xs as [|x xs IH]; intros d Hnd; csimpl.
  - by rewrite app_nil_r.
  - assert (key x ∉ d.*1) as Hx.
    { apply NoDup_app in Hnd as (_ & Hd & _). intros Hin.
      apply (Hd _ Hin). left. }
    rewrite dict_set_fresh by done. rewrite IH.
    + by rewrite <- app_assoc.
    + rewrite fmap_app. csimpl. by rewrite <- app_assoc.
Qed.

End dict_facts.

(** ** Reading the files *)

Section engine_facts.

Variable w : World.
Implicit Types (self : ExcelConsolidator) (file : Path).

Lemma _get_relative_path_data_path self1 self2 file :
  data_path self1 = data_path self2 ->
  _get_relative_path self1 file = _get_relative_path self2 file.
Proof. unfold _get_relative_path. by intros ->. Qed.

Lemma _read_excel_ok self file df :
  read_excel w file = Some df ->
  _read_excel w self file =
    (mkEngine (data_path self)
              (all_keys self ∪ dom (loop_dict (extract df)))
              (file_data self)
              (<[_get_relative_path self file := loop_order (extract df)]>
                 (file_order self)),
     loop_dict (extract df)).
Proof.
  intros Hr. unfold _read_excel. rewrite Hr, loop_universe.
  fold (extract df). by destruct (extract_inv df) as [-> _].
Qed.

Lemma _read_excel_fail self file :
  read_excel w file = None -> _read_excel w self file = (self, ∅).
Proof. intros Hr. unfold _read_excel. by rewrite Hr. Qed.

Lemma read_one_spec self file :
  read_one w self file =
    mkEngine (data_path self)
             (all_keys self ∪ dom (record_of w file).1)
             (dict_set (_get_relative_path self file) (record_of w file).1
                       (file_data self))
             (match read_excel w file with
              | Some _ => <[_get_relative_path self file :=
                              (record_of w file).2]> (file_order self)
              | None => file_order self
              end).
Proof.
  unfold read_one, record_of.
  destruct (read_excel w file) as [df|] eqn:Hr.
  - by rewrite (_read_excel_ok _ _ df).
  - rewrite _read_excel_fail by done. destruct self. simpl.
    by rewrite dom_empty_L, union_empty_r_L.
Qed.

Lemma read_all_data_path self files :
  data_path (foldl (read_one w) self files) = data_path self.
Proof.
  revert self. induction files as [|f files IH]; intros self; simpl; [done|].
  by rewrite IH, read_one_spec.
Qed.

(** The key universe after the reading loop: what was there, and the keys
    of every file's Record. *)
Lemma read_all_keys self files k :
  k ∈ all_keys (foldl (read_one w) self files) <->
  k ∈ all_keys self \/ exists f, f ∈ files /\ k ∈ dom (record_of w f).1.
Proof.
  revert self. induction files as [|f files IH]; intros self; simpl.
  - split; [by left | intros [?|(f & Hf & _)]; [done | by inversion Hf]].
  - rewrite IH, read_one_spec. simpl. rewrite elem_of_union. split.
    + intros [[?|?]|(g & Hg & ?)]; [by left | right.. ].
      * exists f. split; [left | done].
      * exists g. split; [by right | done].
    + intros [?|(g & Hg & ?)]; [by left; left|].
      apply elem_of_cons in Hg as [->|Hg]; [by left; right|].
      right. eauto.
Qed.

Lemma read_all_file_data self files :
  file_data (foldl (read_one w) self files) =
  foldl (fun d f => dict_set (_get_relative_path self f) (record_of w f).1 d)
        (file_data self) files.
Proof.
  revert self. induction files as [|f files IH]; intros self; simpl; [done|].
  rewrite IH. clear IH.
  assert (file_data (read_one w self f) =
          dict_set (_get_relative_path self f) (record_of w f).1
                   (file_data self)) as ->
    by (by rewrite read_one_spec).
  assert (data_path (read_one w self f) = data_path self) as Hp
    by (by rewrite read_one_spec).
  generalize (dict_set (_get_relative_path self f) (record_of w f).1
                       (file_data self)).
  induction files as [|g files IHg]; intros d; simpl; [done|].
  rewrite IHg. do 2 f_equal. by apply _get_relative_path_data_path.
Qed.

End engine_facts.

(** ** Assembling the table *)

Section assembly_facts.

Implicit Types (data vm : gmap string string) (ks : list string).

Lemma value_map_init data ks vm :
  cells_of data vm ->
  cells_of data (foldl (fun vm k => <[k := default "" (data !! k)]> vm) vm ks).
Proof.
  revert vm. induction ks as [|k ks IH]; intros vm Hvm; simpl; [done|].
  apply IH. intros k' v. rewrite lookup_insert.
  case_decide; [|by apply Hvm]. intros [= <-]. subst k'.
  unfold cell. by destruct (data !! k).
Qed.

Lemma value_map_fill data ks vm :
  cells_of data vm ->
  let vm' := foldl (fun vm key =>
                      match vm !! key with
                      | Some _ => vm
                      | None => <[key := default "" (data !! key)]> vm
                      end) vm ks in
  cells_of data vm'
  /\ (forall k, is_Some (vm !! k) -> is_Some (vm' !! k))
  /\ (forall k, k ∈ ks -> is_Some (vm' !! k)).
Proof.
  revert vm. induction ks as [|k ks IH]; intros vm Hvm; simpl.
  { split; [done|]. split; [done|]. intros k Hk. by inversion Hk. }
  destruct (vm !! k) as [v|] eqn:Hk.
  - destruct (IH vm Hvm) as (H1 & H2 & H3). split; [done|]. split; [done|].
    intros k' [->|Hk']%elem_of_cons; [|by apply H3].
    apply H2. by rewrite Hk.
  - destruct (IH (<[k := default "" (data !! k)]> vm)) as (H1 & H2 & H3).
    { intros k' v. rewrite lookup_insert.
      case_decide; [|by apply Hvm]. intros [= <-]. subst k'.
      unfold cell. by destruct (data !! k). }
    split; [done|]. split.
    + intros k' Hk'. apply H2. rewrite lookup_insert.
      by case_decide.
    + intros k' [->|Hk']%elem_of_cons; [|by apply H3].
      apply H2. by rewrite lookup_insert_eq.
Qed.

Lemma mapM_total {A B} (f : A -> option B) (g : A -> B) (l : list A) :
  (forall x, x ∈ l -> f x = Some (g x)) -> mapM f l = Some (map g l).
Proof.
  induction l as [|x l IH]; intros Hl; [done|].
  cbn. rewrite (Hl x) by left. cbn.
  rewrite IH; [done|]. intros y Hy. apply Hl. by right.
Qed.

(** [value_map[key]] never raises, and a row lists the file's cells. *)
Lemma build_row_spec self ks relative_path data :
  build_row self ks relative_path data
  = Some (relative_path :: map (cell data) ks).
Proof.
  unfold build_row.
  set (vm0 := foldl (fun vm k => <[k := default "" (data !! k)]> vm) ∅ _).
  destruct (value_map_fill data ks vm0) as (H1 & _ & H3).
  { apply value_map_init. intros k v. by rewrite lookup_empty. }
  cbn beta zeta in H1, H3.
  erewrite (mapM_total _ (cell data)); [done|].
  intros k Hk. destruct (H3 k Hk) as [v Hv]. rewrite Hv.
  f_equal. by apply H1.
Qed.

Lemma pd_DataFrame_ok (header : list string) (rows : list (list string)) :
  Forall (fun r => length r = length header) rows ->
  pd_DataFrame rows header = Some (mkDataFrame header rows).
Proof.
  intros Hrows. unfold pd_DataFrame.
  assert (forallb (fun r => length r =? length header)%nat rows = true)
    as ->; [|done].
  apply forallb_forall. intros r Hr%list_elem_of_In.
  apply Nat.eqb_eq. by eapply Forall_forall in Hrows.
Qed.

End assembly_facts.

(** [consolidate] in closed form: the two early exits, and otherwise the
    table handed to the export and the export's verdict. *)
Lemma consolidate_files_spec (w : World) (self : ExcelConsolidator)
    (excel_files : list Path) (output_file : string) :
  let self' := foldl (read_one w) self excel_files in
  let ks := PyStr.sorted (elements (all_keys self')) in
  let df := mkDataFrame ("Source File" :: ks) (rows_of ks (file_data self')) in
  consolidate_files w self excel_files output_file =
    if decide (excel_files = []) then mkOutcome self None false
    else if decide (all_keys self' = ∅) then mkOutcome self' None false
    else mkOutcome self' (Some df) (save_excel_ok w df output_file).
Proof.
  intros self' ks df. unfold consolidate_files.
  destruct excel_files as [|f files]; [done|].
  rewrite (decide_False (P := _ :: _ = [])) by done.
  fold self'. case_decide; [done|].
  rewrite sorted_set_iter. fold ks.
  rewrite (mapM_total _ (fun item => item.1 :: map (cell item.2) ks)).
  2:{ intros [rp data] _. apply build_row_spec. }
  fold (rows_of ks (file_data self')). cbn [hd tail].
  rewrite pd_DataFrame_ok; [done|].
  apply Forall_forall. intros r Hr. unfold rows_of in Hr.
  apply list_elem_of_fmap in Hr as (item & -> & _).
  simpl. by rewrite !length_map.
Qed.

(** ** Discovery *)

Section discovery_facts.

Lemma Entry_strong_ind (P : Entry -> Prop) :
  P EFile ->
  (forall es, Forall (fun ne => P ne.2) es -> P (EDir es)) ->
  forall e, P e.
Proof.
  intros HF HD. fix IH 1. intros [|es]; [exact HF|].
  apply HD. induction es as [|[n e] es IHes]; constructor; [apply IH | exact IHes].
Qed.

Lemma filenames_elem es name : name ∈ filenames es <-> (name, EFile) ∈ es.
Proof.
  unfold filenames. rewrite list_elem_of_fmap. split.
  - intros ([n e] & -> & [He Hin]%list_elem_of_filter). simpl in *.
    by destruct e.
  - intros Hin. exists (name, EFile). split; [done|].
    by apply list_elem_of_filter.
Qed.

Lemma os_walk_elem top e root ds fs :
  (root, ds, fs) ∈ os_walk top e <->
  exists rel es, root = top ++ rel /\ dir_at e rel es
                 /\ ds = dirnames es /\ fs = filenames es.
Proof.
  split.
  - revert top. induction e as [|es IH] using Entry_strong_ind; intros top.
    { intros H. by inversion H. }
    simpl. intros [Heq|Hin]%elem_of_cons.
    + injection Heq as -> -> ->. exists [], es.
      rewrite app_nil_r. repeat split. constructor.
    + apply list_elem_of_In, in_flat_map in Hin as ([n sub] & Hsub & Hin).
      apply list_elem_of_In in Hsub, Hin.
      eapply Forall_forall in IH; [|exact Hsub].
      destruct (IH _ Hin) as (rel & es' & -> & Hdir & -> & ->).
      exists (n :: rel), es'. unfold path_join. rewrite <- app_assoc.
      repeat split. by econstructor.
  - intros (rel & es & -> & Hdir & -> & ->). revert top.
    induction Hdir as [es|es name sub rel es' Hsub Hdir IH]; intros top.
    + rewrite app_nil_r. simpl. left.
    + simpl. right. apply list_elem_of_In, in_flat_map.
      exists (name, sub). split; [by apply list_elem_of_In|].
      apply list_elem_of_In. simpl.
      specialize (IH (path_join top name)). unfold path_join in *.
      by rewrite <- app_assoc in IH.
Qed.

Lemma _scan_files_walk w self :
  _scan_files w self = scan_walk (os_walk (data_path self) (fs_root w)).
Proof.
  unfold _scan_files, scan_walk.
  apply flat_map_ext. intros [[root ds] files]. cbn [fst snd].
  induction files as [|f files IH]; [done|].
  cbn [flat_map]. rewrite IH, filter_cons. unfold is_excel_name.
  destruct (PyStr.endswith_any (PyStr.lower f) extensions);
    destruct (PyStr.startswith f "~$"); cbn [andb negb];
    (rewrite decide_True by done) || (rewrite decide_False by done); done.
Qed.

Lemma _scan_files_elem w self p :
  p ∈ _scan_files w self <->
  exists dir name,
    p = data_path self ++ dir ++ [name]
    /\ file_at (fs_root w) dir name
    /\ is_excel_name name = true.
Proof.
  rewrite _scan_files_walk. unfold scan_walk.
  rewrite list_elem_of_In, in_flat_map. split.
  - intros ([[root ds] fs] & Hw & Hp).
    apply list_elem_of_In in Hw, Hp. simpl in Hp.
    apply list_elem_of_fmap in Hp as (name & -> & [Hx Hn]%list_elem_of_filter).
    apply os_walk_elem in Hw as (rel & es & -> & Hdir & -> & ->).
    exists rel, name. unfold path_join. rewrite <- app_assoc.
    split; [done|]. split; [|done].
    exists es. split; [done|]. by apply filenames_elem.
  - intros (dir & name & -> & (es & Hdir & Hn) & Hx).
    exists (data_path self ++ dir, dirnames es, filenames es). split.
    + apply list_elem_of_In, os_walk_elem. by exists dir, es.
    + apply list_elem_of_In. simpl. apply list_elem_of_fmap.
      exists name. unfold path_join. rewrite <- app_assoc. split; [done|].
      apply list_elem_of_filter. split; [done|]. by apply filenames_elem.
Qed.

(** The name test, without the boolean functions. *)
Lemma is_excel_name_spec name :
  is_excel_name name = true <->
  (exists ext stem, In ext [".xlsx"; ".xls"; ".xlsm"]
                    /\ PyStr.lower name = stem +:+ ext)
  /\ ~ (exists rest, name = "~$" +:+ rest).
Proof.
  unfold is_excel_name.
  rewrite andb_true_iff, negb_true_iff, endswith_any_spec.
  rewrite <- not_true_iff_false, startswith_spec. done.
Qed.

End discovery_facts.

(** ** The run as a whole *)

Section run_facts.

Variable w : World.
Implicit Types (self : ExcelConsolidator) (files : list Path).

(** The mapping [_read_excel] returns is the file's Record, whatever the
    engine held before. *)
Lemma _read_excel_record self file :
  (_read_excel w self file).2 = (record_of w file).1.
Proof.
  unfold record_of. destruct (read_excel w file) as [df|] eqn:Hr.
  - by rewrite (_read_excel_ok _ _ _ df).
  - by rewrite _read_excel_fail.
Qed.

Lemma dict_set_elem {V} (k : string) (v : V) (d : Dict V) item :
  item ∈ dict_set k v d -> item = (k, v) \/ item ∈ d.
Proof.
  induction d as [|[k' v'] d IH]; simpl.
  - intros ->%list_elem_of_singleton. by left.
  - case_decide.
    + intros [->|?]%elem_of_cons; [by left | right; by right].
    + intros [->|Hin]%elem_of_cons; [right; left|].
      destruct (IH Hin) as [->|?]; [by left | right; by right].
Qed.

(** Every item of [self.file_data] after the reading loop was there
    before or is a discovered file with its Record. *)
Lemma read_all_items self files item :
  item ∈ file_data (foldl (read_one w) self files) ->
  item ∈ file_data self
  \/ exists f, f ∈ files
               /\ item = (_get_relative_path self f, (record_of w f).1).
Proof.
  rewrite read_all_file_data. generalize (file_data self).
  induction files as [|f files IH]; intros d; simpl; [by left|].
  intros [Hin|(g & Hg & ->)]%IH.
  - apply dict_set_elem in Hin as [->|?]; [right | by left].
    exists f. split; [left | done].
  - right. exists g. split; [by right | done].
Qed.

(** On a fresh engine and files with pairwise distinct relative paths,
    [self.file_data] lists the files in the order they were read. *)
Lemma read_all_fresh (p : Path) files :
  NoDup (map (_get_relative_path (init p)) files) ->
  file_data (foldl (read_one w) (init p) files)
  = map (fun f => (_get_relative_path (init p) f, (record_of w f).1)) files.
Proof.
  intros Hnd. rewrite read_all_file_data.
  by rewrite (dict_fill (_get_relative_path (init p))
                        (fun f => (record_of w f).1)).
Qed.

(** [self.file_order] only gains entries for files that could be read. *)
Lemma read_all_file_order self files rp o :
  file_order (foldl (read_one w) self files) !! rp = Some o ->
  file_order self !! rp = Some o
  \/ exists g, g ∈ files /\ _get_relative_path self g = rp
               /\ is_Some (read_excel w g).
Proof.
  revert self. induction files as [|f files IH]; intros self; simpl;
    [by left|].
  intros [Ho|(g & Hg & Hrp & Hr)]%IH.
  - rewrite read_one_spec in Ho. simpl in Ho.
    destruct (read_excel w f) as [df|] eqn:Hr; [|by left].
    rewrite lookup_insert in Ho. case_decide; [|by left].
    right. exists f. split; [left|]. by rewrite Hr.
  - right. exists g. split; [by right|]. split; [|done].
    rewrite <- Hrp. apply _get_relative_path_data_path.
    by rewrite read_one_spec.
Qed.

Lemma NoDup_fmap_elem {A B} (f : A -> B) (l : list A) x y :
  NoDup (map f l) -> x ∈ l -> y ∈ l -> f x = f y -> x = y.
Proof.
  intros Hnd [i Hi]%list_elem_of_lookup [j Hj]%list_elem_of_lookup Hxy.
  assert (i = j) as ->; [|congruence].
  eapply NoDup_lookup; [exact Hnd | |].
  - change (map f l) with (f <$> l). by rewrite list_lookup_fmap, Hi.
  - change (map f l) with (f <$> l). rewrite list_lookup_fmap, Hj.
    simpl. by rewrite Hxy.
Qed.

End run_facts.

(** ** Python's string order *)

Section order_facts.

Lemma ascii_compare_lt a b : Ascii.compare a b = Lt <-> char_lt a b.
Proof.
  unfold Ascii.compare, char_lt, nat_of_ascii.
  rewrite N.compare_lt_iff. lia.
Qed.

Lemma ascii_compare_gt a b : Ascii.compare a b = Gt <-> char_lt b a.
Proof.
  unfold Ascii.compare, char_lt, nat_of_ascii.
  rewrite N.compare_gt_iff. lia.
Qed.

Lemma char_lt_irrefl a : ~ char_lt a a.
Proof. unfold char_lt. lia. Qed.

Lemma char_lt_asym a b : char_lt a b -> ~ char_lt b a.
Proof. unfold char_lt. lia. Qed.

(** [String.le] is the lexicographic order on code points: the first
    string is a prefix of the second, or at the first position where they
    differ it has the smaller character. *)
Lemma str_le_lexicographic (s t : string) :
  String.le s t <->
  (exists r, t = s +:+ r)
  \/ (exists p a b s' t',
        s = p +:+ String a s' /\ t = p +:+ String b t' /\ char_lt a b).
Proof.
  unfold String.le, String.leb. revert t.
  induction s as [|a s IH]; intros t.
  { destruct t; simpl; (split; [intros _; left; eauto | done]). }
  destruct t as [|b t]; simpl.
  { split; [done|]. intros [[r Hr]|(p & a' & b' & s' & t' & _ & Ht & _)];
      [done | by destruct p]. }
  destruct (Ascii.compare a b) eqn:Hab.
  - apply Ascii.compare_eq_iff in Hab as ->. rewrite IH. split.
    + intros [[r ->]|(p & a' & b' & s' & t' & -> & -> & Hlt)].
      * left. by exists r.
      * right. by exists (String b p), a', b', s', t'.
    + intros [[r Hr]|(p & a' & b' & s' & t' & Hs & Ht & Hlt)].
      * left. exists r. by injection Hr.
      * destruct p as [|c p].
        -- injection Hs as -> _. injection Ht as -> _.
           by apply char_lt_irrefl in Hlt.
        -- injection Hs as _ ->. injection Ht as _ ->.
           right. by exists p, a', b', s', t'.
  - apply ascii_compare_lt in Hab. split; [intros _|done].
    right. by exists "", a, b, s, t.
  - apply ascii_compare_gt in Hab. split; [done|].
    intros [[r Hr]|(p & a' & b' & s' & t' & Hs & Ht & Hlt)].
    + injection Hr as -> _. by apply char_lt_irrefl in Hab.
    + destruct p as [|c p].
      * injection Hs as -> _. injection Ht as -> _.
        by apply char_lt_asym in Hab.
      * injection Hs as -> _. injection Ht as -> _.
        by apply char_lt_irrefl in Hab.
Qed.

(** Upper case sorts before lower case: the order is case-sensitive. *)
Example sorted_case_sensitive :
  PyStr.sorted ["b"; "a"; "B"; "ab"; ""; "Zeta"] = [""; "B"; "Zeta"; "a"; "ab"; "b"].
Proof. reflexivity. Qed.

End order_facts.

(** The first row with a given non-empty key decides the key's value. *)
Lemma extract_first (pre post : Sheet) (c0 c1 : Cell) :
  norm_key c0 <> "" ->
  Forall (fun row => norm_key row.1 <> norm_key c0) pre ->
  loop_dict (extract (pre ++ (c0, c1) :: post)) !! norm_key c0
  = Some (norm_value c1).
Proof.
  intros Hne Hpre. unfold extract. rewrite foldl_app, loop_cons.
  apply loop_keeps.
  assert (loop_dict (foldl row_step (∅, [], ∅) pre) !! norm_key c0 = None)
    as Hnone.
  { rewrite loop_other; [apply lookup_empty | done]. }
  rewrite (row_step_new _ (c0, c1)); [|done..].
  unfold loop_dict at 1. simpl. apply lookup_insert_eq.
Qed.

(** An empty mapping gives empty cells only. *)
Lemma cells_empty (ks : list string) :
  map (cell ∅) ks = replicate (length ks) "".
Proof.
  induction ks as [|k ks IH]; [done|]. simpl. rewrite IH. f_equal.
Qed.

(** * The claims *)

(** C1. Whenever [consolidate] hands a table to the export, row 0 of the
    table is "Source File" followed by the keys of the engine's key
    universe in strictly ascending lexicographic order, and the rows after
    it are the items of the engine's per-file data, in order: the file's
    relative path, then for every key of the header, in the same order,
    the value stored for the key in that file's mapping, or the empty
    string when the mapping has no such key.  On an engine that starts
    with no file data, and with discovered files of pairwise distinct
    relative paths, these items are the discovered files with the Records
    extracted from them. *)
Theorem consolidate_table (w : World) (self : ExcelConsolidator)
    (output_file : string) (df : DataFrame) :
  exported (consolidate w self output_file) = Some df ->
  let self' := engine (consolidate w self output_file) in
  exists sorted_keys : list string,
    (forall k, k ∈ sorted_keys <-> k ∈ all_keys self')
    /\ StronglySorted (strict String.le) sorted_keys
    /\ table_of df =
         ("Source File" :: sorted_keys)
           :: map (fun item : string * gmap string string =>
                     item.1 :: map (fun key => match item.2 !! key with
                                               | Some value => value
                                               | None => ""
                                               end) sorted_keys)
                  (file_data self')
    /\ (file_data self = [] ->
        NoDup (map (_get_relative_path self) (_scan_files w self)) ->
        file_data self' =
          map (fun f => (_get_relative_path self f, (_read_excel w self f).2))
              (_scan_files w self)).
Proof.
  intros Hex self'. unfold consolidate in *.
  pose proof (consolidate_files_spec w self (_scan_files w self) output_file)
    as Hspec. cbv zeta in Hspec.
  rewrite Hspec in Hex. subst self'. rewrite Hspec. clear Hspec.
  case_decide; [done|]. case_decide; [done|].
  simpl in Hex. injection Hex as <-. simpl.
  exists (PyStr.sorted (elements (all_keys
            (foldl (read_one w) self (_scan_files w self))))).
  split; [|split; [|split]].
  - intros k. by rewrite sorted_elem, elem_of_elements.
  - apply sorted_strict, NoDup_elements.
  - done.
  - intros Hfd Hnd. rewrite read_all_file_data, Hfd.
    rewrite (dict_fill (_get_relative_path self) (fun f => (record_of w f).1));
      [|done].
    simpl. apply map_ext. intros f. by rewrite _read_excel_record.
Qed.

Lemma consolidate_table_witness :
  exported (consolidate Samples.world_b (init ["data"]) "out.xlsx")
  = Some Samples.table_b
  /\ exists sorted_keys : list string,
      (forall k, k ∈ sorted_keys <->
                 k ∈ all_keys (engine (consolidate Samples.world_b
                                         (init ["data"]) "out.xlsx")))
      /\ StronglySorted (strict String.le) sorted_keys
      /\ table_of Samples.table_b =
           ("Source File" :: sorted_keys)
             :: map (fun item : string * gmap string string =>
                       item.1 :: map (fun key => match item.2 !! key with
                                                 | Some value => value
                                                 | None => ""
                                                 end) sorted_keys)
                    (file_data (engine (consolidate Samples.world_b
                                          (init ["data"]) "out.xlsx"))).
Proof.
  split; [vm_compute; reflexivity|].
  destruct (consolidate_table Samples.world_b (init ["data"]) "out.xlsx"
              Samples.table_b) as (ks & H1 & H2 & H3 & _).
  - vm_compute. reflexivity.
  - by exists ks.
Defined.

(** C2. On a fresh engine, the key columns of the exported table (the
    header without its first cell) hold no key twice, and a key is among
    them exactly when some discovered file's extraction returned a mapping
    with that key: nothing is dropped, nothing is invented. *)
Theorem key_columns_are_union (w : World) (p : Path) (output_file : string)
    (df : DataFrame) :
  exported (consolidate w (init p) output_file) = Some df ->
  NoDup (tail (df_columns df))
  /\ forall k,
       k ∈ tail (df_columns df) <->
       exists f, f ∈ _scan_files w (init p)
                 /\ k ∈ dom (_read_excel w (init p) f).2.
Proof.
  unfold consolidate. intros Hex.
  pose proof (consolidate_files_spec w (init p) (_scan_files w (init p))
                output_file) as Hspec. cbv zeta in Hspec.
  rewrite Hspec in Hex. clear Hspec.
  case_decide; [done|]. case_decide; [done|].
  simpl in Hex. injection Hex as <-. simpl. split.
  - apply sorted_NoDup, NoDup_elements.
  - intros k. rewrite sorted_elem, elem_of_elements, read_all_keys.
    split.
    + intros [Hk|(f & Hf & Hk)]; [by apply not_elem_of_empty in Hk|].
      exists f. by rewrite _read_excel_record.
    + intros (f & Hf & Hk). right. exists f.
      by rewrite _read_excel_record in Hk.
Qed.

Lemma key_columns_are_union_witness :
  exported (consolidate Samples.world_b (init ["data"]) "out.xlsx")
  = Some Samples.table_b
  /\ NoDup (tail (df_columns Samples.table_b))
  /\ forall k,
       k ∈ tail (df_columns Samples.table_b) <->
       exists f, f ∈ _scan_files Samples.world_b (init ["data"])
                 /\ k ∈ dom (_read_excel Samples.world_b (init ["data"]) f).2.
Proof.
  split; [vm_compute; reflexivity|].
  apply (key_columns_are_union Samples.world_b ["data"] "out.xlsx").
  vm_compute. reflexivity.
Defined.

(** A key that happens to be spelled "Source File" is an ordinary key
    column next to the path column of the same name. *)
Example source_file_key :
  option_map df_columns
    (exported (consolidate
       (Samples.world (EDir [("a.xlsx", EFile)])
          [(["data"; "a.xlsx"], [Samples.row "Source File" "x"])])
       (init ["data"]) "out.xlsx"))
  = Some ["Source File"; "Source File"].
Proof. vm_compute. reflexivity. Qed.

(** C5. [consolidate] hands no table to the export exactly when discovery
    found no file or the key universe is empty once the files are read,
    and then it returns false; in every other case a table reaches the
    export and the returned boolean says whether the export completed. *)
Theorem consolidate_outcome (w : World) (self : ExcelConsolidator)
    (output_file : string) :
  let o := consolidate w self output_file in
  (exported o = None <->
   _scan_files w self = [] \/ all_keys (engine o) = ∅)
  /\ (exported o = None -> returned o = false)
  /\ (forall df, exported o = Some df ->
                 returned o = save_excel_ok w df output_file
                 /\ (save_excel_ok w df output_file = true ->
                     returned o = true))
  /\ (_scan_files w self = [] -> engine o = self)
  /\ (_scan_files w self <> [] ->
      engine o = foldl (read_one w) self (_scan_files w self)).
Proof.
  unfold consolidate.
  pose proof (consolidate_files_spec w self (_scan_files w self) output_file)
    as Hspec. cbv zeta in Hspec. cbv zeta. rewrite Hspec. clear Hspec.
  destruct (decide (_scan_files w self = [])) as [Hs|Hs].
  { simpl. repeat split; try done. by left. }
  destruct (decide (all_keys (foldl (read_one w) self (_scan_files w self)) = ∅))
    as [Hk|Hk]; simpl.
  { repeat split; try done. by right. }
  split; [|split; [done|split; [|done]]].
  - split; [done | by intros [?|?]].
  - intros df [= <-]. split; [done|]. by intros ->.
Qed.

(** C9. Two runs on fresh engines over the same directory contents (the
    same tree, the same sheets, the same export behaviour) end in the same
    outcome, table included, even when the two runs iterate over the key
    set in different orders. *)
Theorem consolidate_idempotent (root : Entry) (sheets : Path -> option Sheet)
    (save : DataFrame -> string -> bool) (it1 it2 : SetIter)
    (p : Path) (output_file : string) :
  consolidate (mkWorld root sheets save it1) (init p) output_file
  = consolidate (mkWorld root sheets save it2) (init p) output_file.
Proof.
  unfold consolidate.
  rewrite !consolidate_files_spec. cbv zeta. reflexivity.
Qed.

(** C3. When a readable file has a row with the non-empty key [k] and no
    row above it has that key, [_read_excel] returns a mapping that binds
    [k] to that row's value, whatever rows follow, and the key list it
    stores for the file holds [k] exactly once.  In Scenario C, rows
    (X, 1) then (X, 2), the exported cell for X is 1. *)
Theorem first_occurrence_wins (w : World) (self : ExcelConsolidator)
    (file : Path) (pre post : Sheet) (c0 c1 : Cell) (k : string) :
  read_excel w file = Some (pre ++ (c0, c1) :: post) ->
  norm_key c0 = k -> k <> "" ->
  Forall (fun row => norm_key row.1 <> k) pre ->
  (_read_excel w self file).2 !! k = Some (norm_value c1)
  /\ (exists key_order,
        file_order (_read_excel w self file).1
          !! _get_relative_path self file = Some key_order
        /\ count_occ string_dec key_order k = 1)
  /\ option_map table_of
       (exported (consolidate Samples.world_c (init ["data"]) "out.xlsx"))
     = Some [["Source File"; "X"]; ["dup.xlsx"; "1"]].
Proof.
  intros Hr Hk Hne Hpre. subst k.
  rewrite (_read_excel_ok _ _ _ _ Hr). simpl.
  set (df := pre ++ (c0, c1) :: post).
  assert (loop_dict (extract df) !! norm_key c0 = Some (norm_value c1)) as Hv
    by (by apply extract_first).
  split; [done|]. split; [|vm_compute; reflexivity].
  exists (loop_order (extract df)). split; [apply lookup_insert_eq|].
  destruct (extract_inv df) as (_ & Hnd & Hord & _).
  apply NoDup_ListNoDup in Hnd.
  apply (proj1 (NoDup_count_occ' string_dec _) Hnd).
  apply list_elem_of_In, Hord, elem_of_dom. by rewrite Hv.
Qed.

Lemma first_occurrence_wins_witness :
  (_read_excel Samples.world_c (init ["data"]) ["data"; "dup.xlsx"]).2 !! "X"
  = Some "1"
  /\ (exists key_order,
        file_order (_read_excel Samples.world_c (init ["data"])
                      ["data"; "dup.xlsx"]).1
          !! _get_relative_path (init ["data"]) ["data"; "dup.xlsx"]
        = Some key_order
        /\ count_occ string_dec key_order "X" = 1)
  /\ option_map table_of
       (exported (consolidate Samples.world_c (init ["data"]) "out.xlsx"))
     = Some [["Source File"; "X"]; ["dup.xlsx"; "1"]].
Proof.
  apply (first_occurrence_wins Samples.world_c (init ["data"])
           ["data"; "dup.xlsx"] [] [Samples.row "X" "2"]
           (Some "X") (Some "1") "X").
  - vm_compute. reflexivity.
  - vm_compute. reflexivity.
  - intros H. discriminate H.
  - constructor.
Defined.

(** C6. [_scan_files] returns a path exactly when it is the root followed
    by the place of a plain file in the tree whose name, in lower case,
    ends with .xlsx, .xls or .xlsm and whose name does not start with ~$.
    The result is the same whatever the files contain and however the rest
    of the world behaves, and it is the empty list when no file name
    passes the test. *)
Theorem scan_files_exact (w : World) (self : ExcelConsolidator) :
  (forall p,
     p ∈ _scan_files w self <->
     exists dir name,
       p = data_path self ++ dir ++ [name]
       /\ file_at (fs_root w) dir name
       /\ (exists ext stem, In ext [".xlsx"; ".xls"; ".xlsm"]
                            /\ PyStr.lower name = stem +:+ ext)
       /\ ~ (exists rest, name = "~$" +:+ rest))
  /\ (forall sheets save it,
        _scan_files (mkWorld (fs_root w) sheets save it) self
        = _scan_files w self)
  /\ ((forall dir name, file_at (fs_root w) dir name ->
                        is_excel_name name = false) ->
      _scan_files w self = []).
Proof.
  split; [|split].
  - intros p. rewrite _scan_files_elem. split.
    + intros (dir & name & -> & Hf & [Hx Hl]%is_excel_name_spec).
      by exists dir, name.
    + intros (dir & name & -> & Hf & Hx & Hl). exists dir, name.
      split; [done|]. split; [done|]. by apply is_excel_name_spec.
  - done.
  - intros Hnone. destruct (_scan_files w self) as [|p l] eqn:Hs; [done|].
    assert (p ∈ _scan_files w self) as Hp by (rewrite Hs; left).
    apply _scan_files_elem in Hp as (dir & name & _ & Hf & Hx).
    rewrite (Hnone _ _ Hf) in Hx. discriminate Hx.
Qed.

(** The walk of Scenario E: the lock file, the text file and the
    directory are left out; the upper-case extension is accepted. *)
Example scan_files_sample :
  _scan_files Samples.world_e (init ["data"])
  = [["data"; "bad.xlsx"]; ["data"; "sub"; "good.XLS"]]
  /\ _scan_files Samples.world_d (init ["data"]) = [].
Proof. split; reflexivity. Qed.

(** C7. A cell that is absent becomes the empty string, for the key and
    for the value; a present key is stripped: a run of white space is
    removed at either end and nothing else, so that the result neither
    starts nor ends with white space; a present value is taken as it is.
    A row whose stripped key is empty leaves the mapping, the key list
    and the key universe as they are, and a sheet with such a row reads
    like the sheet without it. *)
Theorem blank_key_row_skipped (w1 w2 : World) (self : ExcelConsolidator)
    (file : Path) (pre post : Sheet) (row : Cell * Cell) :
  norm_key row.1 = "" ->
  read_excel w1 file = Some (pre ++ row :: post) ->
  read_excel w2 file = Some (pre ++ post) ->
  norm_key None = "" /\ norm_value None = ""
  /\ (forall s, norm_value (Some s) = s)
  /\ (forall s,
        (exists l r, s = l +:+ norm_key (Some s) +:+ r
                     /\ all_space l = true /\ all_space r = true)
        /\ (forall c t, norm_key (Some s) = String c t ->
                        PyStr.isspace c = false)
        /\ (forall t c, norm_key (Some s) = t +:+ String c "" ->
                        PyStr.isspace c = false))
  /\ (forall st, row_step st row = st)
  /\ _read_excel w1 self file = _read_excel w2 self file.
Proof.
  intros Hk Hr1 Hr2.
  split; [done|]. split; [done|]. split; [done|].
  split; [intros s; apply strip_spec|].
  split; [intros st; by apply row_step_skip|].
  unfold _read_excel. rewrite Hr1, Hr2.
  rewrite !foldl_app, loop_cons. by rewrite row_step_skip.
Qed.

Lemma blank_key_row_skipped_witness :
  let w1 := Samples.world (EDir [("a.xlsx", EFile)])
              [(["data"; "a.xlsx"],
                [Samples.row "K" "v"] ++ (Some "   ", Some "lost")
                  :: [Samples.row "L" " w "])] in
  let w2 := Samples.world (EDir [("a.xlsx", EFile)])
              [(["data"; "a.xlsx"],
                [Samples.row "K" "v"] ++ [Samples.row "L" " w "])] in
  (forall st, row_step st (Some "   ", Some "lost") = st)
  /\ _read_excel w1 (init ["data"]) ["data"; "a.xlsx"]
     = _read_excel w2 (init ["data"]) ["data"; "a.xlsx"].
Proof.
  intros w1 w2.
  destruct (blank_key_row_skipped w1 w2 (init ["data"]) ["data"; "a.xlsx"]
              [Samples.row "K" "v"] [Samples.row "L" " w "]
              (Some "   ", Some "lost"))
    as (_ & _ & _ & _ & H1 & H2).
  - vm_compute. reflexivity.
  - vm_compute. reflexivity.
  - vm_compute. reflexivity.
  - split; [exact H1 | exact H2].
Defined.

(** C4. For a discovered file that cannot be read, [_read_excel] returns
    the empty mapping and leaves the engine untouched, so that no key list
    is stored for the file; the reading loop goes on over all files; when
    some file yields a key a table reaches the export; and in any
    exported table there is one row per discovered file, the row of the
    unreadable file being its relative path followed by empty strings
    only, and the row of every file being its relative path followed by
    the cells of the mapping extracted from it. *)
Theorem failed_file_empty_row (w : World) (p : Path) (output_file : string)
    (f : Path) :
  let files := _scan_files w (init p) in
  let o := consolidate w (init p) output_file in
  f ∈ files -> read_excel w f = None ->
  NoDup (map (_get_relative_path (init p)) files) ->
  (forall self, _read_excel w self f = (self, ∅))
  /\ file_order (engine o) !! _get_relative_path (init p) f = None
  /\ engine o = foldl (read_one w) (init p) files
  /\ ((exists g, g ∈ files /\ (_read_excel w (init p) g).2 <> ∅) ->
      exists df, exported o = Some df
                 /\ returned o = save_excel_ok w df output_file)
  /\ (forall df,
        exported o = Some df ->
        length (df_data df) = length files
        /\ (forall i,
              files !! i = Some f ->
              df_data df !! i
              = Some (_get_relative_path (init p) f
                        :: replicate (length (tail (df_columns df))) ""))
        /\ (forall i g,
              files !! i = Some g ->
              df_data df !! i
              = Some (_get_relative_path (init p) g
                        :: map (fun key =>
                                  match (_read_excel w (init p) g).2 !! key with
                                  | Some value => value
                                  | None => ""
                                  end) (tail (df_columns df))))).
Proof.
  intros files o Hf Hr Hnd.
  pose proof (consolidate_files_spec w (init p) files output_file) as Hspec.
  cbv zeta in Hspec. subst o. unfold consolidate. fold files.
  rewrite Hspec. clear Hspec.
  assert (files <> []) as Hne by (intros E; rewrite E in Hf; inversion Hf).
  rewrite (decide_False (P := files = [])) by done.
  set (self' := foldl (read_one w) (init p) files).
  assert (engine (if decide (all_keys self' = ∅)
                  then mkOutcome self' None false
                  else mkOutcome self'
                         (Some (mkDataFrame
                            ("Source File" :: PyStr.sorted (elements (all_keys self')))
                            (rows_of (PyStr.sorted (elements (all_keys self')))
                                     (file_data self'))))
                         (save_excel_ok w
                            (mkDataFrame
                               ("Source File" :: PyStr.sorted (elements (all_keys self')))
                               (rows_of (PyStr.sorted (elements (all_keys self')))
                                        (file_data self')))
                            output_file)) = self') as Heng
    by (by case_decide).
  split; [intros self; by apply _read_excel_fail|].
  split.
  { rewrite Heng.
    destruct (file_order self' !! _get_relative_path (init p) f) as [o|] eqn:Ho;
      [|done].
    apply read_all_file_order in Ho as [Ho|(g & Hg & Hrp & Hsome)].
    - unfold init in Ho. simpl in Ho. by rewrite lookup_empty in Ho.
    - assert (g = f) as ->
        by (eapply (NoDup_fmap_elem (_get_relative_path (init p))); eauto).
      rewrite Hr in Hsome. by destruct Hsome. }
  split; [done|].
  split.
  { intros (g & Hg & Hdata).
    rewrite decide_False; [eauto|].
    apply map_choose in Hdata as (k & v & Hk).
    intros Hempty. apply (not_elem_of_empty (C := gset string) k).
    rewrite <- Hempty. apply read_all_keys. right. exists g.
    split; [done|]. rewrite <- _read_excel_record with (self := init p).
    apply elem_of_dom. by rewrite Hk. }
  intros df. case_decide; [done|]. simpl. intros [= <-]. simpl.
  assert (file_data self' =
          map (fun f0 => (_get_relative_path (init p) f0, (record_of w f0).1))
              files) as -> by (by apply read_all_fresh).
  unfold rows_of. rewrite !length_map.
  split; [done|].
  assert (forall i g, files !! i = Some g ->
            map (fun item : string * gmap string string =>
                   item.1 :: map (cell item.2) (PyStr.sorted (elements (all_keys self'))))
                (map (fun f0 => (_get_relative_path (init p) f0, (record_of w f0).1))
                     files) !! i
            = Some (_get_relative_path (init p) g
                      :: map (cell (record_of w g).1)
                             (PyStr.sorted (elements (all_keys self'))))) as Hrow.
  { intros i g Hi.
    change (map ?h ?l) with (h <$> l).
    rewrite !list_lookup_fmap, Hi. done. }
  split.
  - intros i Hi. rewrite (Hrow _ _ Hi). do 2 f_equal.
    unfold record_of. rewrite Hr. simpl. apply cells_empty.
  - intros i g Hi. rewrite (Hrow _ _ Hi). do 2 f_equal.
    apply map_ext. intros k. by rewrite _read_excel_record.
Qed.

Lemma failed_file_empty_row_witness :
  (exists df,
     exported (consolidate Samples.world_e (init ["data"]) "out.xlsx") = Some df
     /\ returned (consolidate Samples.world_e (init ["data"]) "out.xlsx")
        = save_excel_ok Samples.world_e df "out.xlsx")
  /\ Samples.table_e
     = mkDataFrame ["Source File"; "Age"; "Name"]
                   [["bad.xlsx"; ""; ""]; ["sub/good.XLS"; ""; "Alice"]].
Proof.
  destruct (failed_file_empty_row Samples.world_e ["data"] "out.xlsx"
              ["data"; "bad.xlsx"]) as (_ & _ & _ & H & _).
  - vm_compute. left.
  - vm_compute. reflexivity.
  - apply (bool_decide_unpack _). vm_compute. exact I.
  - split; [|reflexivity]. apply H. exists ["data"; "sub"; "good.XLS"].
    split.
    + vm_compute. right. left.
    + apply (bool_decide_unpack _). vm_compute. exact I.
Defined.

(** C8. On a fresh engine, two processing orders of the same files (with
    pairwise distinct relative paths) end with the same key universe, and
    either both hand no table to the export or both hand one, with the
    same header and the same rows up to their order. *)
Theorem processing_order_irrelevant (w : World) (p : Path)
    (files1 files2 : list Path) (output_file : string) :
  files1 ≡ₚ files2 ->
  NoDup (map (_get_relative_path (init p)) files1) ->
  let o1 := consolidate_files w (init p) files1 output_file in
  let o2 := consolidate_files w (init p) files2 output_file in
  all_keys (engine o1) = all_keys (engine o2)
  /\ match exported o1, exported o2 with
     | Some df1, Some df2 =>
         df_columns df1 = df_columns df2 /\ df_data df1 ≡ₚ df_data df2
     | None, None => True
     | _, _ => False
     end.
Proof.
  intros Hperm Hnd1 o1 o2.
  assert (NoDup (map (_get_relative_path (init p)) files2)) as Hnd2.
  { change (map ?h ?l) with (h <$> l) in *. by rewrite <- Hperm. }
  assert (all_keys (foldl (read_one w) (init p) files1)
          = all_keys (foldl (read_one w) (init p) files2)) as Hkeys.
  { apply set_eq. intros k. rewrite !read_all_keys.
    by setoid_rewrite Hperm. }
  subst o1 o2. rewrite !consolidate_files_spec. cbv zeta.
  destruct (decide (files1 = [])) as [->|Hne1].
  { apply Permutation_nil_l in Hperm. subst files2. done. }
  rewrite (decide_False (P := files2 = [])).
  2:{ intros ->. by apply Permutation_nil_r in Hperm. }
  rewrite <- Hkeys.
  case_decide; simpl; [done|]. split; [done|]. split; [done|].
  rewrite !read_all_fresh by done. unfold rows_of.
  change (map ?h ?l) with (h <$> l). by rewrite Hperm.
Qed.

Lemma processing_order_irrelevant_witness :
  let files1 := [["data"; "one.xlsx"]; ["data"; "two.xlsx"]] in
  let files2 := [["data"; "two.xlsx"]; ["data"; "one.xlsx"]] in
  let o1 := consolidate_files Samples.world_b (init ["data"]) files1 "out.xlsx" in
  let o2 := consolidate_files Samples.world_b (init ["data"]) files2 "out.xlsx" in
  all_keys (engine o1) = all_keys (engine o2)
  /\ match exported o1, exported o2 with
     | Some df1, Some df2 =>
         df_columns df1 = df_columns df2 /\ df_data df1 ≡ₚ df_data df2
     | None, None => True
     | _, _ => False
     end.
Proof.
  intros files1 files2.
  apply (processing_order_irrelevant Samples.world_b ["data"] files1 files2
           "out.xlsx").
  - apply perm_swap.
  - apply (bool_decide_unpack _). vm_compute. exact I.
Defined.

(** The rows come in the order in which the files were processed. *)
Example processing_order_rows :
  option_map df_data
    (exported (consolidate_files Samples.world_b (init ["data"])
                 [["data"; "two.xlsx"]; ["data"; "one.xlsx"]] "out.xlsx"))
  = Some [["two.xlsx"; ""; "3"; "4"]; ["one.xlsx"; "1"; "2"; ""]].
Proof. vm_compute. reflexivity. Qed.

(** C10. In an exported table of a run on a fresh engine, the cell of a
    file and a key is the empty string when the file's mapping has no
    such key and also when it binds the key to the empty string.  Every
    key that a file's mapping binds, to whatever value, is a column of the
    table; and a row with a non-empty key and an absent value cell, the
    first with that key, binds the key to the empty string. *)
Theorem blank_value_like_absent (w : World) (p : Path) (output_file : string)
    (df : DataFrame) :
  exported (consolidate w (init p) output_file) = Some df ->
  let self' := engine (consolidate w (init p) output_file) in
  (forall i j relative_path data k,
     file_data self' !! i = Some (relative_path, data) ->
     tail (df_columns df) !! j = Some k ->
     data !! k = None \/ data !! k = Some "" ->
     df_data df !! i ≫= (fun r => r !! S j) = Some "")
  /\ (forall relative_path data k,
        (relative_path, data) ∈ file_data self' ->
        is_Some (data !! k) -> k ∈ tail (df_columns df))
  /\ (forall w' self file pre post c0,
        read_excel w' file = Some (pre ++ (c0, None) :: post) ->
        norm_key c0 <> "" ->
        Forall (fun row => norm_key row.1 <> norm_key c0) pre ->
        (_read_excel w' self file).2 !! norm_key c0 = Some "").
Proof.
  intros Hex self'. unfold consolidate in *.
  pose proof (consolidate_files_spec w (init p) (_scan_files w (init p))
                output_file) as Hspec. cbv zeta in Hspec.
  subst self'. rewrite Hspec in Hex |- *. clear Hspec.
  case_decide; [done|]. case_decide; [done|].
  simpl in Hex. injection Hex as <-. simpl.
  set (self' := foldl (read_one w) (init p) (_scan_files w (init p))).
  set (ks := PyStr.sorted (elements (all_keys self'))).
  split; [|split].
  - intros i j rp data k Hi Hj Hk. unfold rows_of.
    change (map ?h ?l) with (h <$> l).
    unfold Dict in Hi. rewrite list_lookup_fmap, Hi. simpl.
    rewrite list_lookup_fmap, Hj. simpl. f_equal. unfold cell.
    by destruct Hk as [-> | ->].
  - intros rp data k Hin [v Hv]. unfold ks.
    rewrite sorted_elem, elem_of_elements.
    apply read_all_items in Hin as [Hin|(f & Hf & [= -> ->])];
      [by inversion Hin|].
    apply read_all_keys. right. exists f. split; [done|].
    apply elem_of_dom. by rewrite Hv.
  - intros w' self file pre post c0 Hr Hne Hpre.
    rewrite (_read_excel_ok _ _ _ _ Hr). simpl.
    by rewrite extract_first.
Qed.

Lemma blank_value_like_absent_witness :
  exported (consolidate Samples.world_e (init ["data"]) "out.xlsx")
  = Some Samples.table_e
  /\ (forall i j relative_path data k,
        file_data (engine (consolidate Samples.world_e (init ["data"])
                             "out.xlsx")) !! i
        = Some (relative_path, data) ->
        tail (df_columns Samples.table_e) !! j = Some k ->
        data !! k = None \/ data !! k = Some "" ->
        df_data Samples.table_e !! i ≫= (fun r => r !! S j) = Some "").
Proof.
  split; [vm_compute; reflexivity|].
  destruct (blank_value_like_absent Samples.world_e ["data"] "out.xlsx"
              Samples.table_e) as (H & _).
  - vm_compute. reflexivity.
  - exact H.
Defined.

(** In Scenario E the file [good.XLS] binds Age to the empty string and the
    unreadable file binds nothing: both Age cells are empty, and Age is a
    column only because of the blank-valued row. *)
Example blank_value_sample :
  exported (consolidate Samples.world_e (init ["data"]) "out.xlsx")
  = Some Samples.table_e
  /\ (_read_excel Samples.world_e (init ["data"])
        ["data"; "sub"; "good.XLS"]).2 !! "Age" = Some ""
  /\ (_read_excel Samples.world_e (init ["data"])
        ["data"; "bad.xlsx"]).2 !! "Age" = None.
Proof. repeat split; vm_compute; reflexivity. Qed.

(** * Further properties of the engine *)

(** ** Relative paths *)

Lemma relative_to_app (base rel : Path) : relative_to (base ++ rel) base = Some rel.
Proof.
  induction base as [|b base IH]; simpl; [by destruct rel|].
  by rewrite decide_True.
Qed.



(** X2. Every discovered file lies below the root: its relative path is
    the join of the directory names leading to it and its own name, and
    the fall-back to the whole path is never taken. *)
Theorem scanned_relative_path (w : World) (self : ExcelConsolidator)
    (p : Path) :
  p ∈ _scan_files w self ->
  exists dir name,
    p = data_path self ++ dir ++ [name]
    /\ file_at (fs_root w) dir name
    /\ relative_to p (data_path self) = Some (dir ++ [name])
    /\ _get_relative_path self p = path_str (dir ++ [name]).
Proof.
  intros Hp. apply _scan_files_elem in Hp as (dir & name & -> & Hf & _).
  exists dir, name. split; [done|]. split; [done|].
  unfold _get_relative_path. by rewrite relative_to_app.
Qed.

Lemma scanned_relative_path_witness :
  exists dir name,
    ["data"; "sub"; "good.XLS"] = data_path (init ["data"]) ++ dir ++ [name]
    /\ file_at (fs_root Samples.world_e) dir name
    /\ relative_to ["data"; "sub"; "good.XLS"] (data_path (init ["data"]))
       = Some (dir ++ [name])
    /\ _get_relative_path (init ["data"]) ["data"; "sub"; "good.XLS"]
       = path_str (dir ++ [name]).
Proof.
  apply (scanned_relative_path Samples.world_e (init ["data"])).
  vm_compute. right. left.
Defined.

(** ** More on the row loop *)

Section loop_more.

Implicit Types (st : LoopState) (df : Sheet).

(** Where a binding comes from: it was there before the loop, or a row of
    the sheet has that stripped key and that value. *)
Lemma loop_provenance st df k v :
  loop_dict (foldl row_step st df) !! k = Some v ->
  loop_dict st !! k = Some v
  \/ (k <> "" /\ exists row, row ∈ df /\ norm_key row.1 = k
                            /\ norm_value row.2 = v).
Proof.
  revert st. induction df as [|row df IH]; intros st; [by left|].
  rewrite loop_cons. intros [Hst|(Hk & r & Hr & Hrk & Hrv)]%IH.
  - destruct (row_step_cases st row) as [E|(Hne & Hnone & E)];
      rewrite E in Hst; [by left|].
    unfold loop_dict at 1 in Hst. simpl in Hst.
    rewrite lookup_insert in Hst. case_decide; [|by left].
    injection Hst as <-. subst k. right. split; [done|].
    exists row. split; [left | done].
  - right. split; [done|]. exists r. split; [by right | done].
Qed.

(** Every row with a non-empty stripped key leaves the key bound. *)
Lemma loop_binds st df row :
  row ∈ df -> norm_key row.1 <> "" ->
  is_Some (loop_dict (foldl row_step st df) !! norm_key row.1).
Proof.
  revert st. induction df as [|r df IH]; intros st Hin Hne;
    [by inversion Hin|].
  rewrite loop_cons. apply elem_of_cons in Hin as [->|Hin]; [|by apply IH].
  destruct (loop_dict st !! norm_key r.1) as [v|] eqn:Hd.
  - rewrite (row_step_seen _ _ v) by done. exists v. by apply loop_keeps.
  - rewrite row_step_new by done. exists (norm_value r.2).
    apply loop_keeps. unfold loop_dict at 1. simpl. apply lookup_insert_eq.
Qed.

(** The loop only appends to the key list. *)
Lemma loop_order_prefix st df :
  loop_order st `prefix_of` loop_order (foldl row_step st df).
Proof.
  revert st. induction df as [|row df IH]; intros st; [done|].
  rewrite loop_cons. etrans; [|apply IH].
  destruct (row_step_cases st row) as [->|(_ & _ & ->)]; [done|].
  unfold loop_order at 2. simpl. by apply prefix_app_r.
Qed.

Lemma lstrip_fixed (s : string) :
  (forall c r, s = String c r -> PyStr.isspace c = false) ->
  PyStr.lstrip s = s.
Proof.
  destruct s as [|c r]; [done|]. intros H. simpl. by rewrite (H c r).
Qed.

(** Stripping twice is stripping once. *)
Lemma strip_idempotent (s : string) : PyStr.strip (PyStr.strip s) = PyStr.strip s.
Proof.
  destruct (strip_spec s) as (_ & Hhead & Hlast).
  set (t := PyStr.strip s) in *. unfold PyStr.strip at 1.
  rewrite (lstrip_fixed t) by done. unfold PyStr.rstrip.
  rewrite lstrip_fixed; [apply rev_involutive|].
  intros c r Hr. apply (Hlast (String.rev r)).
  by rewrite <- (rev_involutive t), Hr, rev_cons.
Qed.

(** The keys of a sheet's Record are non-empty and stripped. *)
Lemma extract_keys_stripped df k :
  k ∈ dom (loop_dict (extract df)) -> k <> "" /\ PyStr.strip k = k.
Proof.
  intros [v Hv]%elem_of_dom.
  apply loop_provenance in Hv as [Hv|(Hk & row & _ & Hrow & _)];
    [unfold loop_dict in Hv; simpl in Hv; by rewrite lookup_empty in Hv|].
  split; [done|]. subst k. unfold norm_key in *.
  destruct row.1 as [s|]; [apply strip_idempotent | done].
Qed.

End loop_more.

(** X3. For a readable file, the mapping [_read_excel] returns binds a
    key to a value only if the key is non-empty and some row of the sheet
    has that stripped key and that value; and every non-empty stripped
    key of a row is bound. *)
Theorem read_excel_bindings (w : World) (self : ExcelConsolidator)
    (file : Path) (df : Sheet) :
  read_excel w file = Some df ->
  (forall k v,
     (_read_excel w self file).2 !! k = Some v ->
     k <> "" /\ exists row, row ∈ df /\ norm_key row.1 = k
                            /\ norm_value row.2 = v)
  /\ (forall row,
        row ∈ df -> norm_key row.1 <> "" ->
        is_Some ((_read_excel w self file).2 !! norm_key row.1)).
Proof.
  intros Hr. rewrite (_read_excel_ok _ _ _ _ Hr). simpl. split.
  - intros k v Hv. apply loop_provenance in Hv as [Hv|?]; [|done].
    unfold loop_dict in Hv. simpl in Hv. by rewrite lookup_empty in Hv.
  - intros row Hin Hne. by apply loop_binds.
Qed.

Lemma read_excel_bindings_witness :
  (forall k v,
     (_read_excel Samples.world_e (init ["data"])
        ["data"; "sub"; "good.XLS"]).2 !! k = Some v ->
     k <> ""
     /\ exists row,
          row ∈ [Samples.row " Name " "Alice"; (None, Some "lost");
                 (Some "Age", None)]
          /\ norm_key row.1 = k /\ norm_value row.2 = v)
  /\ (forall row,
        row ∈ [Samples.row " Name " "Alice"; (None, Some "lost");
               (Some "Age", None)] ->
        norm_key row.1 <> "" ->
        is_Some ((_read_excel Samples.world_e (init ["data"])
                    ["data"; "sub"; "good.XLS"]).2 !! norm_key row.1)).
Proof.
  apply (read_excel_bindings Samples.world_e (init ["data"])
           ["data"; "sub"; "good.XLS"]).
  vm_compute. reflexivity.
Defined.

(** X4. Rows added at the bottom of a sheet only add: the mapping read
    from the longer sheet contains the mapping read from the shorter one,
    and the stored key list of the shorter sheet is a prefix of that of
    the longer one. *)
Theorem read_excel_append_only (w1 w2 : World) (self : ExcelConsolidator)
    (file : Path) (pre post : Sheet) :
  read_excel w1 file = Some pre ->
  read_excel w2 file = Some (pre ++ post) ->
  (_read_excel w1 self file).2 ⊆ (_read_excel w2 self file).2
  /\ exists o1 o2,
       file_order (_read_excel w1 self file).1
         !! _get_relative_path self file = Some o1
       /\ file_order (_read_excel w2 self file).1
            !! _get_relative_path self file = Some o2
       /\ o1 `prefix_of` o2.
Proof.
  intros H1 H2.
  rewrite (_read_excel_ok _ _ _ _ H1), (_read_excel_ok _ _ _ _ H2). simpl.
  assert (extract (pre ++ post) = foldl row_step (extract pre) post) as ->
    by (unfold extract; apply foldl_app).
  split.
  - apply map_subseteq_spec. intros k v. apply loop_keeps.
  - exists (loop_order (extract pre)),
           (loop_order (foldl row_step (extract pre) post)).
    rewrite !lookup_insert_eq. split; [done|]. split; [done|].
    apply loop_order_prefix.
Qed.

Lemma read_excel_append_only_witness :
  let w1 := Samples.world (EDir [("a.xlsx", EFile)])
              [(["data"; "a.xlsx"], [Samples.row "K" "v"])] in
  let w2 := Samples.world (EDir [("a.xlsx", EFile)])
              [(["data"; "a.xlsx"],
                [Samples.row "K" "v"] ++ [Samples.row "K" "w"; Samples.row "L" "x"])] in
  (_read_excel w1 (init ["data"]) ["data"; "a.xlsx"]).2
  ⊆ (_read_excel w2 (init ["data"]) ["data"; "a.xlsx"]).2
  /\ exists o1 o2,
       file_order (_read_excel w1 (init ["data"]) ["data"; "a.xlsx"]).1
         !! _get_relative_path (init ["data"]) ["data"; "a.xlsx"] = Some o1
       /\ file_order (_read_excel w2 (init ["data"]) ["data"; "a.xlsx"]).1
            !! _get_relative_path (init ["data"]) ["data"; "a.xlsx"] = Some o2
       /\ o1 `prefix_of` o2.
Proof.
  intros w1 w2.
  apply (read_excel_append_only w1 w2 (init ["data"]) ["data"; "a.xlsx"]
           [Samples.row "K" "v"] [Samples.row "K" "w"; Samples.row "L" "x"]).
  - vm_compute. reflexivity.
  - vm_compute. reflexivity.
Defined.

(** X5. A successful [_read_excel] changes nothing of the engine except
    that the key universe gains exactly the keys of the returned mapping
    and that the file's own key list is stored: the root, the file data
    and the key lists of other files are as before.  The stored key list
    has no repetition, lists exactly the keys of the returned mapping, and
    is as long as the mapping is large. *)
Theorem read_excel_frame (w : World) (self : ExcelConsolidator)
    (file : Path) (df : Sheet) :
  read_excel w file = Some df ->
  let self' := (_read_excel w self file).1 in
  let data := (_read_excel w self file).2 in
  data_path self' = data_path self
  /\ file_data self' = file_data self
  /\ all_keys self' = all_keys self ∪ dom data
  /\ (forall rp, rp <> _get_relative_path self file ->
                 file_order self' !! rp = file_order self !! rp)
  /\ exists key_order,
       file_order self' !! _get_relative_path self file = Some key_order
       /\ NoDup key_order
       /\ (forall k, k ∈ key_order <-> k ∈ dom data)
       /\ length key_order = size data.
Proof.
  intros Hr. rewrite (_read_excel_ok _ _ _ _ Hr). simpl.
  split; [done|]. split; [done|]. split; [done|]. split.
  { intros rp Hrp. by rewrite lookup_insert_ne. }
  exists (loop_order (extract df)).
  destruct (extract_inv df) as (_ & Hnd & Hord & _).
  rewrite lookup_insert_eq. split; [done|]. split; [done|]. split; [done|].
  rewrite <- size_dom. unfold size, set_size. simpl.
  apply Permutation_length, NoDup_Permutation; [done | apply NoDup_elements|].
  intros k. by rewrite Hord, elem_of_elements.
Qed.

Lemma read_excel_frame_witness :
  let self := init ["data"] in
  let file := ["data"; "dup.xlsx"] in
  let self' := (_read_excel Samples.world_c self file).1 in
  let data := (_read_excel Samples.world_c self file).2 in
  data_path self' = data_path self
  /\ file_data self' = file_data self
  /\ all_keys self' = all_keys self ∪ dom data
  /\ (forall rp, rp <> _get_relative_path self file ->
                 file_order self' !! rp = file_order self !! rp)
  /\ exists key_order,
       file_order self' !! _get_relative_path self file = Some key_order
       /\ NoDup key_order
       /\ (forall k, k ∈ key_order <-> k ∈ dom data)
       /\ length key_order = size data.
Proof.
  intros self file.
  apply (read_excel_frame Samples.world_c self file Samples.sheet_c).
  vm_compute. reflexivity.
Defined.

(** X6. In a table exported by a run on a fresh engine every key column
    is a non-empty string that stripping leaves unchanged. *)
Theorem header_keys_stripped (w : World) (p : Path) (output_file : string)
    (df : DataFrame) :
  exported (consolidate w (init p) output_file) = Some df ->
  forall k, k ∈ tail (df_columns df) -> k <> "" /\ PyStr.strip k = k.
Proof.
  unfold consolidate. intros Hex.
  pose proof (consolidate_files_spec w (init p) (_scan_files w (init p))
                output_file) as Hspec. cbv zeta in Hspec.
  rewrite Hspec in Hex. clear Hspec.
  case_decide; [done|]. case_decide; [done|].
  simpl in Hex. injection Hex as <-. simpl.
  intros k. rewrite sorted_elem, elem_of_elements, read_all_keys.
  intros [Hk|(f & _ & Hk)]; [by apply not_elem_of_empty in Hk|].
  unfold record_of in Hk. destruct (read_excel w f) as [sheet|].
  - by apply (extract_keys_stripped sheet).
  - simpl in Hk. rewrite dom_empty_L in Hk. by apply not_elem_of_empty in Hk.
Qed.

Lemma header_keys_stripped_witness :
  exported (consolidate Samples.world_e (init ["data"]) "out.xlsx")
  = Some Samples.table_e
  /\ forall k, k ∈ tail (df_columns Samples.table_e) ->
               k <> "" /\ PyStr.strip k = k.
Proof.
  split; [vm_compute; reflexivity|].
  apply (header_keys_stripped Samples.world_e ["data"] "out.xlsx").
  vm_compute. reflexivity.
Defined.

(** X7. Every exported table is rectangular: the header starts with
    "Source File", each data row has as many cells as the header, there
    is one data row per item of the engine's file data, and the first
    cells of the data rows are the relative paths in the engine's order. *)
Theorem table_rectangular (w : World) (self : ExcelConsolidator)
    (output_file : string) (df : DataFrame) :
  exported (consolidate w self output_file) = Some df ->
  let self' := engine (consolidate w self output_file) in
  head (df_columns df) = Some "Source File"
  /\ Forall (fun r => length r = length (df_columns df)) (df_data df)
  /\ length (df_data df) = length (file_data self')
  /\ map (hd "") (df_data df) = map fst (file_data self').
Proof.
  intros Hex self'. unfold consolidate in *.
  pose proof (consolidate_files_spec w self (_scan_files w self) output_file)
    as Hspec. cbv zeta in Hspec.
  subst self'. rewrite Hspec in Hex |- *. clear Hspec.
  case_decide; [done|]. case_decide; [done|].
  simpl in Hex. injection Hex as <-. simpl.
  unfold rows_of. split; [done|]. split; [|split].
  - apply Forall_forall. intros r Hr.
    apply list_elem_of_fmap in Hr as (item & -> & _).
    simpl. by rewrite length_map.
  - by rewrite length_map.
  - rewrite map_map. by apply map_ext.
Qed.

Lemma table_rectangular_witness :
  exported (consolidate Samples.world_b (init ["data"]) "out.xlsx")
  = Some Samples.table_b
  /\ head (df_columns Samples.table_b) = Some "Source File"
  /\ Forall (fun r => length r = length (df_columns Samples.table_b))
            (df_data Samples.table_b)
  /\ length (df_data Samples.table_b)
     = length (file_data (engine (consolidate Samples.world_b
                                    (init ["data"]) "out.xlsx")))
  /\ map (hd "") (df_data Samples.table_b)
     = map fst (file_data (engine (consolidate Samples.world_b
                                     (init ["data"]) "out.xlsx"))).
Proof.
  split; [vm_compute; reflexivity|].
  apply (table_rectangular Samples.world_b (init ["data"]) "out.xlsx").
  vm_compute. reflexivity.
Defined.

(** ** Reading the same files again *)

Section reread_facts.

Variable w : World.
Variable p : Path.
Implicit Types (self : ExcelConsolidator) (files : list Path).

Lemma relative_path_root self file :
  data_path self = p ->
  _get_relative_path self file = _get_relative_path (init p) file.
Proof. intros Hp. by apply _get_relative_path_data_path. Qed.

Lemma _scan_files_root self :
  data_path self = p -> _scan_files w self = _scan_files w (init p).
Proof. intros Hp. unfold _scan_files. by rewrite Hp. Qed.

Lemma read_one_data_path self file : data_path (read_one w self file) = data_path self.
Proof. by rewrite read_one_spec. Qed.

(** Files with other relative paths leave a stored key list alone. *)
Lemma read_all_file_order_other self files rp :
  data_path self = p ->
  rp ∉ map (_get_relative_path (init p)) files ->
  file_order (foldl (read_one w) self files) !! rp = file_order self !! rp.
Proof.
  revert self. induction files as [|f files IH]; intros self Hp Hrp; [done|].
  simpl in *. apply not_elem_of_cons in Hrp as [Hf Hrp].
  rewrite IH; [| by rewrite read_one_data_path | done].
  rewrite read_one_spec. simpl.
  destruct (read_excel w f); [|done].
  rewrite lookup_insert_ne; [done|]. by rewrite (relative_path_root _ _ Hp).
Qed.

(** After the loop a readable file's key list is the one of its Record. *)
Lemma read_all_file_order_lookup self files f df :
  data_path self = p ->
  NoDup (map (_get_relative_path (init p)) files) ->
  f ∈ files -> read_excel w f = Some df ->
  file_order (foldl (read_one w) self files) !! _get_relative_path (init p) f
  = Some (record_of w f).2.
Proof.
  revert self. induction files as [|g files IH]; intros self Hp Hnd Hf Hr;
    [by inversion Hf|].
  simpl in *. apply NoDup_cons in Hnd as [Hg Hnd].
  apply elem_of_cons in Hf as [->|Hf].
  - rewrite read_all_file_order_other;
      [| by rewrite read_one_data_path | done].
    rewrite read_one_spec. simpl. rewrite Hr.
    rewrite (relative_path_root _ _ Hp). apply lookup_insert_eq.
  - apply IH; [by rewrite read_one_data_path | done..].
Qed.

Lemma dict_set_same {V} (k : string) (v : V) (d : Dict V) :
  NoDup d.*1 -> (k, v) ∈ d -> dict_set k v d = d.
Proof.
  induction d as [|[k' v'] d IH]; csimpl; intros Hnd Hin;
    [by inversion Hin|].
  apply NoDup_cons in Hnd as [Hk' Hnd].
  apply elem_of_cons in Hin as [[= <- <-]|Hin].
  - by rewrite decide_True.
  - rewrite decide_False; [by rewrite IH|].
    intros <-. apply Hk'. apply list_elem_of_fmap. by exists (k, v).
Qed.

(** Reading a file whose Record the engine already holds changes nothing. *)
Lemma read_one_fixed self f :
  dom (record_of w f).1 ⊆ all_keys self ->
  dict_set (_get_relative_path self f) (record_of w f).1 (file_data self)
  = file_data self ->
  (is_Some (read_excel w f) ->
   file_order self !! _get_relative_path self f = Some (record_of w f).2) ->
  read_one w self f = self.
Proof.
  intros Hk Hd Ho. rewrite read_one_spec, Hd.
  rewrite (comm_L (∪) (all_keys self)), (subseteq_union_1_L _ _ Hk).
  destruct self as [dp ks fd fo]. simpl in *. f_equal.
  destruct (read_excel w f); [|done].
  apply insert_id, Ho. eauto.
Qed.

(** The reading loop is idempotent on a fresh engine. *)
Lemma read_all_again files :
  NoDup (map (_get_relative_path (init p)) files) ->
  foldl (read_one w) (foldl (read_one w) (init p) files) files
  = foldl (read_one w) (init p) files.
Proof.
  intros Hnd. set (S1 := foldl (read_one w) (init p) files).
  assert (data_path S1 = p) as Hp by apply read_all_data_path.
  assert (forall l, l ⊆ files -> foldl (read_one w) S1 l = S1) as Hfix;
    [|by apply Hfix].
  induction l as [|f l IH]; intros Hl; [done|]. simpl.
  assert (f ∈ files) as Hf by (apply Hl; left).
  rewrite read_one_fixed; [apply IH; set_solver | | |].
  - intros k Hk. apply read_all_keys. right. eauto.
  - rewrite (relative_path_root _ _ Hp). apply dict_set_same.
    + unfold S1. rewrite read_all_fresh by done.
      change (map ?h ?l) with (h <$> l). rewrite <- list_fmap_compose.
      exact Hnd.
    + unfold S1. rewrite read_all_fresh by done.
      apply list_elem_of_fmap. by exists f.
  - intros [df Hr]. rewrite (relative_path_root _ _ Hp).
    by apply (read_all_file_order_lookup _ _ _ df).
Qed.

End reread_facts.

(** X8. No value is lost: in a table exported by a run on a fresh engine
    over files with pairwise distinct relative paths, whatever
    [_read_excel] extracted from the i-th discovered file under a key
    stands in the i-th data row, in the column whose header cell is that
    key, and the row starts with the file's relative path. *)
Theorem values_reach_table (w : World) (p : Path) (output_file : string)
    (df : DataFrame) :
  exported (consolidate w (init p) output_file) = Some df ->
  NoDup (map (_get_relative_path (init p)) (_scan_files w (init p))) ->
  forall i f k v,
    _scan_files w (init p) !! i = Some f ->
    (_read_excel w (init p) f).2 !! k = Some v ->
    exists j r,
      df_columns df !! S j = Some k
      /\ df_data df !! i = Some r
      /\ r !! 0 = Some (_get_relative_path (init p) f)
      /\ r !! S j = Some v.
Proof.
  unfold consolidate. intros Hex Hnd i f k v Hi Hv.
  pose proof (consolidate_files_spec w (init p) (_scan_files w (init p))
                output_file) as Hspec. cbv zeta in Hspec.
  rewrite Hspec in Hex. clear Hspec.
  case_decide; [done|]. case_decide; [done|].
  simpl in Hex. injection Hex as <-. simpl.
  rewrite _read_excel_record in Hv.
  set (ks := PyStr.sorted (elements (all_keys
               (foldl (read_one w) (init p) (_scan_files w (init p)))))).
  assert (k ∈ ks) as [j Hj]%list_elem_of_lookup.
  { unfold ks. rewrite sorted_elem, elem_of_elements.
    apply read_all_keys. right. exists f.
    split; [by eapply list_elem_of_lookup_2|].
    apply elem_of_dom. by rewrite Hv. }
  exists j, (_get_relative_path (init p) f :: map (cell (record_of w f).1) ks).
  split; [done|]. split; [|split; [done|]].
  - rewrite read_all_fresh by done. unfold rows_of.
    change (map ?h ?l) with (h <$> l). by rewrite !list_lookup_fmap, Hi.
  - simpl. change (map ?h ?l) with (h <$> l).
    rewrite list_lookup_fmap, Hj. simpl. unfold cell. by rewrite Hv.
Qed.

Lemma values_reach_table_witness :
  exists j r,
    df_columns Samples.table_b !! S j = Some "C"
    /\ df_data Samples.table_b !! 1 = Some r
    /\ r !! 0 = Some (_get_relative_path (init ["data"]) ["data"; "two.xlsx"])
    /\ r !! S j = Some "4".
Proof.
  apply (values_reach_table Samples.world_b ["data"] "out.xlsx"
           Samples.table_b).
  - vm_compute. reflexivity.
  - apply (bool_decide_unpack _). vm_compute. exact I.
  - vm_compute. reflexivity.
  - vm_compute. reflexivity.
Defined.

(** X9. After a call of [consolidate] that exported a table,
    [get_summary] agrees with the table: the number of files is the
    number of data rows, the number of keys is the number of key columns,
    and the file names are the first cells of the data rows, in order. *)
Theorem summary_matches_table (w : World) (self : ExcelConsolidator)
    (output_file : string) (df : DataFrame) :
  exported (consolidate w self output_file) = Some df ->
  let summary := get_summary (engine (consolidate w self output_file)) in
  total_files summary = length (df_data df)
  /\ total_keys summary = length (tail (df_columns df))
  /\ file_names summary = map (hd "") (df_data df).
Proof.
  intros Hex summary. unfold consolidate in *.
  pose proof (consolidate_files_spec w self (_scan_files w self) output_file)
    as Hspec. cbv zeta in Hspec.
  subst summary. rewrite Hspec in Hex |- *. clear Hspec.
  case_decide; [done|]. case_decide; [done|].
  simpl in Hex. injection Hex as <-. simpl.
  unfold rows_of. split; [by rewrite length_map|]. split.
  - rewrite (Permutation_length (sorted_perm _)). done.
  - rewrite map_map. by apply map_ext.
Qed.

Lemma summary_matches_table_witness :
  exported (consolidate Samples.world_e (init ["data"]) "out.xlsx")
  = Some Samples.table_e
  /\ get_summary (engine (consolidate Samples.world_e (init ["data"])
                            "out.xlsx"))
     = mkSummary 2 2 ["bad.xlsx"; "sub/good.XLS"].
Proof.
  split; [vm_compute; reflexivity|].
  destruct (summary_matches_table Samples.world_e (init ["data"]) "out.xlsx"
              Samples.table_e) as (H1 & H2 & H3).
  - vm_compute. reflexivity.
  - destruct (get_summary _) as [n k names]. simpl in *.
    by rewrite H1, H2, H3.
Defined.

(** X10. After a call of [consolidate] on a fresh engine, over files with
    pairwise distinct relative paths, the summary counts every discovered
    file, readable or not, and lists the relative paths in discovery
    order, whether or not a table was exported; and the number of keys is
    zero exactly when no table was exported. *)
Theorem summary_counts_files (w : World) (p : Path) (output_file : string) :
  NoDup (map (_get_relative_path (init p)) (_scan_files w (init p))) ->
  let o := consolidate w (init p) output_file in
  total_files (get_summary (engine o)) = length (_scan_files w (init p))
  /\ file_names (get_summary (engine o))
     = map (_get_relative_path (init p)) (_scan_files w (init p))
  /\ (total_keys (get_summary (engine o)) = 0 <-> exported o = None).
Proof.
  intros Hnd o. subst o. unfold consolidate.
  pose proof (consolidate_files_spec w (init p) (_scan_files w (init p))
                output_file) as Hspec. cbv zeta in Hspec.
  rewrite Hspec. clear Hspec.
  destruct (decide (_scan_files w (init p) = [])) as [Hs|Hs].
  { rewrite Hs. unfold get_summary, init. cbn [engine total_files total_keys
      file_names file_data all_keys length map exported].
    split; [done|]. split; [done|]. split; [done|].
    intros _. apply (size_empty (C := gset string)). }
  set (S1 := foldl (read_one w) (init p) (_scan_files w (init p))).
  assert (engine (if decide (all_keys S1 = ∅)
                  then mkOutcome S1 None false
                  else mkOutcome S1
                         (Some (mkDataFrame
                            ("Source File" :: PyStr.sorted (elements (all_keys S1)))
                            (rows_of (PyStr.sorted (elements (all_keys S1)))
                                     (file_data S1))))
                         (save_excel_ok w
                            (mkDataFrame
                               ("Source File" :: PyStr.sorted (elements (all_keys S1)))
                               (rows_of (PyStr.sorted (elements (all_keys S1)))
                                        (file_data S1)))
                            output_file)) = S1) as ->
    by (by case_decide).
  unfold get_summary. cbn [total_files total_keys file_names].
  assert (file_data S1 =
          map (fun f => (_get_relative_path (init p) f, (record_of w f).1))
              (_scan_files w (init p))) as -> by (by apply read_all_fresh).
  split; [by rewrite length_map|]. split.
  - rewrite map_map. by apply map_ext.
  - rewrite size_empty_iff, leibniz_equiv_iff.
    case_decide; simpl; split; done.
Qed.

Lemma summary_counts_files_witness :
  let o := consolidate Samples.world_e (init ["data"]) "out.xlsx" in
  total_files (get_summary (engine o))
  = length (_scan_files Samples.world_e (init ["data"]))
  /\ file_names (get_summary (engine o))
     = map (_get_relative_path (init ["data"]))
           (_scan_files Samples.world_e (init ["data"]))
  /\ (total_keys (get_summary (engine o)) = 0 <-> exported o = None).
Proof.
  apply (summary_counts_files Samples.world_e ["data"] "out.xlsx").
  apply (bool_decide_unpack _). vm_compute. exact I.
Defined.

(** X11. Calling [consolidate] a second time on the same engine, over the
    same world, ends in the same engine state, the same exported table and
    the same returned value as the first call on the fresh engine (files
    with pairwise distinct relative paths). *)
Theorem consolidate_again (w : World) (p : Path) (output_file : string) :
  NoDup (map (_get_relative_path (init p)) (_scan_files w (init p))) ->
  consolidate w (engine (consolidate w (init p) output_file)) output_file
  = consolidate w (init p) output_file.
Proof.
  intros Hnd. unfold consolidate at 2 3.
  pose proof (consolidate_files_spec w (init p) (_scan_files w (init p))
                output_file) as Hspec. cbv zeta in Hspec.
  rewrite Hspec. clear Hspec.
  destruct (decide (_scan_files w (init p) = [])) as [Hs|Hs].
  { simpl. unfold consolidate. by rewrite Hs. }
  set (S1 := foldl (read_one w) (init p) (_scan_files w (init p))).
  assert (data_path S1 = p) as Hp by apply read_all_data_path.
  assert (consolidate w S1 output_file
          = if decide (all_keys S1 = ∅) then mkOutcome S1 None false
            else mkOutcome S1
                   (Some (mkDataFrame
                      ("Source File" :: PyStr.sorted (elements (all_keys S1)))
                      (rows_of (PyStr.sorted (elements (all_keys S1)))
                               (file_data S1))))
                   (save_excel_ok w
                      (mkDataFrame
                         ("Source File" :: PyStr.sorted (elements (all_keys S1)))
                         (rows_of (PyStr.sorted (elements (all_keys S1)))
                                  (file_data S1)))
                      output_file)) as Hagain.
  { assert (foldl (read_one w) S1 (_scan_files w (init p)) = S1) as Hfix
      by (by apply read_all_again).
    unfold consolidate. rewrite (_scan_files_root w p S1 Hp).
    rewrite consolidate_files_spec. cbv zeta.
    rewrite (decide_False (P := _scan_files w (init p) = [])) by done.
    by rewrite Hfix. }
  case_decide; simpl; exact Hagain.
Qed.

Lemma consolidate_again_witness :
  consolidate Samples.world_b
    (engine (consolidate Samples.world_b (init ["data"]) "out.xlsx"))
    "out.xlsx"
  = consolidate Samples.world_b (init ["data"]) "out.xlsx".
Proof.
  apply (consolidate_again Samples.world_b ["data"] "out.xlsx").
  apply (bool_decide_unpack _). vm_compute. exact I.
Defined.

(** ** Distinct relative paths *)

Section distinct_paths.

Lemma sep_free_app_inv (a b r1 r2 : string) :
  sep_free a = true -> sep_free b = true ->
  a +:+ String "/" r1 = b +:+ String "/" r2 -> a = b /\ r1 = r2.
Proof.
  revert b. induction a as [|c a IH]; intros [|d b] Ha Hb;
    rewrite ?str_app_nil_l, ?str_app_cons; intros Heq.
  - by injection Heq as ->.
  - injection Heq as <- _. by simpl in Hb.
  - injection Heq as -> _. by simpl in Ha.
  - injection Heq as -> Heq. simpl in Ha, Hb.
    apply andb_true_iff in Ha as [_ Ha]. apply andb_true_iff in Hb as [_ Hb].
    destruct (IH b Ha Hb Heq) as [-> ->]. done.
Qed.

Lemma sep_free_no_sep (a b r : string) :
  sep_free a = true -> a <> b +:+ String "/" r.
Proof.
  revert a. induction b as [|d b IH]; intros [|c a] Ha;
    rewrite ?str_app_nil_l, ?str_app_cons; try done.
  - intros [= -> _]. by simpl in Ha.
  - intros [= -> Heq]. simpl in Ha. apply andb_true_iff in Ha as [_ Ha].
    by apply (IH a Ha).
Qed.

Lemma path_str_cons (x y : string) (l : list string) :
  path_str (x :: y :: l) = x +:+ String "/" (path_str (y :: l)).
Proof. reflexivity. Qed.

(** Joining is injective on non-empty lists of separator-free names. *)
Lemma path_str_inj (l1 l2 : list string) :
  Forall (fun n => sep_free n = true) l1 ->
  Forall (fun n => sep_free n = true) l2 ->
  l1 <> [] -> l2 <> [] -> path_str l1 = path_str l2 -> l1 = l2.
Proof.
  revert l2. induction l1 as [|x l1 IH]; intros l2 H1 H2 Hn1 Hn2 Heq; [done|].
  destruct l2 as [|y l2]; [done|].
  apply Forall_cons in H1 as [Hx H1]. apply Forall_cons in H2 as [Hy H2].
  destruct l1 as [|x' l1], l2 as [|y' l2].
  - unfold path_str in Heq. simpl in Heq. by subst.
  - rewrite path_str_cons in Heq. unfold path_str at 1 in Heq. simpl in Heq.
    by apply sep_free_no_sep in Heq.
  - rewrite path_str_cons in Heq. unfold path_str at 2 in Heq. simpl in Heq.
    symmetry in Heq. by apply sep_free_no_sep in Heq.
  - rewrite !path_str_cons in Heq.
    apply sep_free_app_inv in Heq as [-> Heq]; [|done..].
    f_equal. by apply IH.
Qed.

Lemma scan_walk_elem (top : Path) (e : Entry) (p : Path) :
  p ∈ scan_walk (os_walk top e) <->
  exists dir name,
    p = top ++ dir ++ [name] /\ file_at e dir name
    /\ is_excel_name name = true.
Proof.
  unfold scan_walk. rewrite list_elem_of_In, in_flat_map. split.
  - intros ([[root ds] fs] & Hw & Hp).
    apply list_elem_of_In in Hw, Hp. simpl in Hp.
    apply list_elem_of_fmap in Hp as (name & -> & [Hx Hn]%list_elem_of_filter).
    apply os_walk_elem in Hw as (rel & es & -> & Hdir & -> & ->).
    exists rel, name. unfold path_join. rewrite <- app_assoc.
    split; [done|]. split; [|done].
    exists es. split; [done|]. by apply filenames_elem.
  - intros (dir & name & -> & (es & Hdir & Hn) & Hx).
    exists (top ++ dir, dirnames es, filenames es). split.
    + apply list_elem_of_In, os_walk_elem. by exists dir, es.
    + apply list_elem_of_In. simpl. apply list_elem_of_fmap.
      exists name. unfold path_join. rewrite <- app_assoc. split; [done|].
      apply list_elem_of_filter. split; [done|]. by apply filenames_elem.
Qed.

(** The walk of a directory: its own files, then those of its entries. *)
Lemma scan_walk_dir (top : Path) (es : list (string * Entry)) :
  scan_walk (os_walk top (EDir es))
  = map (path_join top) (filter (fun f => is_excel_name f = true) (filenames es))
    ++ flat_map (fun ne => scan_walk (os_walk (path_join top ne.1) ne.2)) es.
Proof.
  unfold scan_walk at 1. cbn [os_walk flat_map fst snd]. f_equal.
  induction es as [|ne es IH]; [done|].
  cbn [flat_map]. rewrite flat_map_app, IH. done.
Qed.

Lemma NoDup_fst_filter (Q : string * Entry -> Prop) `{forall x, Decision (Q x)}
    (es : list (string * Entry)) :
  NoDup es.*1 -> NoDup (filter Q es).*1.
Proof.
  induction es as [|ne es IH]; [done|]. csimpl.
  intros [Hne Hnd]%NoDup_cons. rewrite filter_cons.
  case_decide; [|by apply IH]. csimpl. apply NoDup_cons. split; [|by apply IH].
  intros Hin. apply Hne.
  apply list_elem_of_fmap in Hin as (x & -> & [_ Hx]%list_elem_of_filter).
  apply list_elem_of_fmap. by exists x.
Qed.

Lemma scan_walk_NoDup (e : Entry) :
  unique_names e = true -> forall top, NoDup (scan_walk (os_walk top e)).
Proof.
  induction e as [|es IH] using Entry_strong_ind; intros Hu top.
  { constructor. }
  simpl in Hu. apply andb_true_iff in Hu as [Hnd Hsub].
  apply bool_decide_eq_true in Hnd.
  rewrite scan_walk_dir. apply NoDup_app. split; [|split].
  - apply NoDup_fmap_2_strong.
    + intros x y _ _ Hxy. unfold path_join in Hxy.
      apply app_inv_head in Hxy. by injection Hxy.
    + apply NoDup_filter. unfold filenames.
      change (map fst ?l) with (l.*1). by apply NoDup_fst_filter.
  - intros x Hx HB.
    apply list_elem_of_fmap in Hx as (name & -> & _).
    apply list_elem_of_In, in_flat_map in HB as ([n sub] & _ & HB).
    apply list_elem_of_In, scan_walk_elem in HB as (dir & name' & HB & _).
    unfold path_join in HB. simpl in HB. rewrite <- app_assoc in HB.
    apply app_inv_head in HB. simpl in HB. injection HB as _ HB.
    by destruct dir.
  - change (map fst es) with (es.*1) in Hnd.
    induction es as [|[n sub] es IHes]; [constructor|].
    cbn [flat_map fst snd]. csimpl in Hnd.
    apply NoDup_cons in Hnd as [Hn Hnd].
    apply Forall_cons in IH as [IHhd IHtl].
    simpl in Hsub. apply andb_true_iff in Hsub as [Hhd Hsub].
    apply NoDup_app. split; [by apply IHhd|]. split; [|by apply IHes].
    intros x Hx HB.
    apply scan_walk_elem in Hx as (dir & name & -> & _).
    apply list_elem_of_In, in_flat_map in HB as ([n' sub'] & Hin & HB).
    apply list_elem_of_In, scan_walk_elem in HB as (dir' & name' & HB & _).
    unfold path_join in HB. simpl in HB. rewrite <- !app_assoc in HB.
    apply app_inv_head in HB. simpl in HB. injection HB as -> _.
    apply Hn. apply list_elem_of_fmap. exists (n', sub').
    split; [done | by apply list_elem_of_In].
Qed.

(** The names on the way to a directory, and those in it, are free of
    separators when all names of the tree are. *)
Lemma sep_free_dir_at (e : Entry) (dir : Path) (es : list (string * Entry)) :
  sep_free_names e = true -> dir_at e dir es ->
  Forall (fun n => sep_free n = true) dir
  /\ Forall (fun ne => sep_free ne.1 = true) es.
Proof.
  intros He Hdir. induction Hdir as [es|es name sub rel es' Hsub Hdir IH].
  - split; [constructor|]. simpl in He. apply Forall_forall. intros ne Hne.
    apply list_elem_of_In in Hne.
    apply (proj1 (forallb_forall _ _) He) in Hne.
    by apply andb_true_iff in Hne as [? _].
  - simpl in He. apply list_elem_of_In in Hsub.
    apply (proj1 (forallb_forall _ _) He) in Hsub. simpl in Hsub.
    apply andb_true_iff in Hsub as [Hname Hs].
    destruct (IH Hs) as [H1 H2]. split; [by constructor | done].
Qed.

Lemma sep_free_file_at (e : Entry) (dir : Path) (name : string) :
  sep_free_names e = true -> file_at e dir name ->
  Forall (fun n => sep_free n = true) (dir ++ [name]).
Proof.
  intros He (es & Hdir & Hin).
  destruct (sep_free_dir_at _ _ _ He Hdir) as [H1 H2].
  apply Forall_app. split; [done|]. constructor; [|constructor].
  by eapply Forall_forall in H2; [|exact Hin].
Qed.

End distinct_paths.

(** X12. On a tree as a file system has it (no two entries of a
    directory share a name, no name contains the separator),
    [_scan_files] returns no path twice and no two discovered files have
    the same relative path: the rows of the table are keyed without
    collision. *)
Theorem scanned_paths_distinct (w : World) (self : ExcelConsolidator) :
  unique_names (fs_root w) = true ->
  sep_free_names (fs_root w) = true ->
  NoDup (_scan_files w self)
  /\ NoDup (map (_get_relative_path self) (_scan_files w self)).
Proof.
  intros Hu Hs.
  assert (NoDup (_scan_files w self)) as Hnd.
  { rewrite _scan_files_walk. by apply scan_walk_NoDup. }
  split; [done|]. apply NoDup_fmap_2_strong; [|done].
  intros x y Hx Hy Hxy.
  apply _scan_files_elem in Hx as (dx & nx & -> & Hfx & _).
  apply _scan_files_elem in Hy as (dy & ny & -> & Hfy & _).
  unfold _get_relative_path in Hxy. rewrite !relative_to_app in Hxy.
  f_equal. apply path_str_inj; [by apply (sep_free_file_at (fs_root w)).. | | |done].
  - by destruct dx.
  - by destruct dy.
Qed.

Lemma scanned_paths_distinct_witness :
  NoDup (_scan_files Samples.world_e (init ["data"]))
  /\ NoDup (map (_get_relative_path (init ["data"]))
                (_scan_files Samples.world_e (init ["data"]))).
Proof.
  apply (scanned_paths_distinct Samples.world_e (init ["data"])).
  - vm_compute. reflexivity.
  - vm_compute. reflexivity.
Defined.

(** Without the proviso two files can share a relative path: a name with
    a separator in it collides with a file in a sub-directory. *)
Example relative_path_collision :
  let w := Samples.world
             (EDir [("a/b.xlsx", EFile); ("a", EDir [("b.xlsx", EFile)])]) [] in
  map (_get_relative_path (init ["data"])) (_scan_files w (init ["data"]))
  = ["a/b.xlsx"; "a/b.xlsx"].
Proof. reflexivity. Qed.

(** ** The front end *)

Section front_end.

Variable w : World.
Variable p : Path.

(** Once the files are read and a key is known, a further call of
    [consolidate] always reaches the export. *)
Lemma consolidate_after_reading (output_file : string) :
  let S1 := foldl (read_one w) (init p) (_scan_files w (init p)) in
  _scan_files w (init p) <> [] -> all_keys S1 <> ∅ ->
  exists df,
    exported (consolidate w S1 output_file) = Some df
    /\ returned (consolidate w S1 output_file) = save_excel_ok w df output_file.
Proof.
  intros S1 Hs Hk.
  assert (data_path S1 = p) as Hp by apply read_all_data_path.
  unfold consolidate. rewrite (_scan_files_root w p S1 Hp).
  rewrite consolidate_files_spec. cbv zeta.
  rewrite (decide_False (P := _scan_files w (init p) = [])) by done.
  rewrite decide_False; [simpl; eauto|].
  intros Hempty. apply Hk. apply set_eq. intros k. split; [|set_solver].
  intros Hin. rewrite <- Hempty. apply read_all_keys. by left.
Qed.

(** With pairwise distinct relative paths, that further call does what a
    call on the fresh engine does. *)
Lemma consolidate_reread (output_file : string) :
  NoDup (map (_get_relative_path (init p)) (_scan_files w (init p))) ->
  consolidate w (foldl (read_one w) (init p) (_scan_files w (init p)))
    output_file
  = consolidate w (init p) output_file.
Proof.
  intros Hnd.
  set (S1 := foldl (read_one w) (init p) (_scan_files w (init p))).
  assert (data_path S1 = p) as Hp by apply read_all_data_path.
  assert (foldl (read_one w) S1 (_scan_files w (init p)) = S1) as Hfix
    by (by apply read_all_again).
  unfold consolidate. rewrite (_scan_files_root w p S1 Hp).
  rewrite !consolidate_files_spec. cbv zeta. fold S1. rewrite Hfix.
  case_decide as Hs; [|done].
  unfold S1. by rewrite Hs.
Qed.

(** The key universe after the loop is empty exactly when no file has a
    key. *)
Lemma read_all_no_keys :
  all_keys (foldl (read_one w) (init p) (_scan_files w (init p))) = ∅ <->
  forall f, f ∈ _scan_files w (init p) -> (_read_excel w (init p) f).2 = ∅.
Proof.
  split.
  - intros Hempty f Hf. rewrite _read_excel_record.
    apply map_empty. intros k.
    destruct ((record_of w f).1 !! k) as [v|] eqn:Hk; [|done].
    exfalso. apply (not_elem_of_empty (C := gset string) k).
    rewrite <- Hempty. apply read_all_keys. right. exists f.
    split; [done|]. apply elem_of_dom. by rewrite Hk.
  - intros Hall. apply set_eq. intros k. split; [|set_solver].
    intros [Hk|(f & Hf & Hk)]%read_all_keys; [done|].
    rewrite <- _read_excel_record with (self := init p) in Hk.
    rewrite (Hall f Hf), dom_empty_L in Hk. done.
Qed.

End front_end.

(** X13. The dialog of the front end.  It reports a missing input
    exactly when a field is empty, and a fatal error exactly when the
    fields are filled and the constructor rejects the folder.  For a
    folder that is a directory: it warns that there are no files exactly
    when discovery is empty, and that there is no data exactly when files
    were found and none yields a key; and it reports that the
    consolidation failed only when a table reached the export and the
    export raised: the engine's own exits for no files and no keys are
    not reachable from the front end. *)
Theorem front_end_dialog (found : option Entry)
    (sheets : Path -> option Sheet) (save : DataFrame -> string -> bool)
    (it : SetIter) (to_path : string -> Path)
    (input_folder output_file : string) :
  let dialog := start_consolidation found sheets save it to_path
                                    input_folder output_file in
  (dialog = MissingInput <-> input_folder = "" \/ output_file = "")
  /\ (forall e,
        dialog = FatalError e <->
        input_folder <> "" /\ output_file <> ""
        /\ _validate_path found = Some e)
  /\ (forall es,
        found = Some (EDir es) ->
        input_folder <> "" -> output_file <> "" ->
        let w := mkWorld (EDir es) sheets save it in
        let self := init (to_path input_folder) in
        (dialog = NoExcelFiles <-> _scan_files w self = [])
        /\ (dialog = NoValidData <->
            _scan_files w self <> []
            /\ forall f, f ∈ _scan_files w self ->
                         (_read_excel w self f).2 = ∅)
        /\ (dialog = ConsolidationFailed ->
            exists df,
              exported (consolidate w
                          (foldl (read_one w) self (_scan_files w self))
                          output_file) = Some df
              /\ save df output_file = false)).
Proof.
  intros dialog. subst dialog. unfold start_consolidation.
  destruct (decide (input_folder = "" \/ output_file = "")) as [Hin|Hin].
  { split; [done|]. split.
    - intros e. split; [done|]. intros (H1 & H2 & _). by destruct Hin.
    - intros es _ H1 H2. by destruct Hin. }
  assert (input_folder <> "" /\ output_file <> "") as [Hi Ho].
  { split; intros ->; apply Hin; auto. }
  split; [|split].
  - split; [|done]. unfold new_engine.
    destruct found as [[|es]|]; simpl; try done.
    destruct (_scan_files _ _); [done|].
    case_decide; [done|]. by destruct (returned _).
  - intros e. unfold new_engine.
    destruct found as [[|es]|]; simpl.
    + split; [by intros [= <-] | by intros (_ & _ & [= <-])].
    + split; [|by intros (_ & _ & [=])].
      destruct (_scan_files _ _); [done|].
      case_decide; [done|]. by destruct (returned _).
    + split; [by intros [= <-] | by intros (_ & _ & [= <-])].
  - intros es Hf _ _. subst found. cbv zeta. unfold new_engine. simpl.
    set (w := mkWorld (EDir es) sheets save it).
    set (self := init (to_path input_folder)).
    change (mkEngine (to_path input_folder) ∅ [] ∅) with self.
    pose proof (read_all_no_keys w (to_path input_folder)) as Hkeys.
    fold self in Hkeys.
    destruct (_scan_files w self) as [|f files] eqn:Hs.
    { split; [done|]. split; [|done]. split; [done | by intros [? _]]. }
    rewrite <- Hs in *.
    assert (_scan_files w self <> []) as Hne by (by rewrite Hs).
    destruct (decide (all_keys (foldl (read_one w) self (_scan_files w self)) = ∅))
      as [Hk|Hk].
    { split; [split; [discriminate | intros E; by destruct Hne]|].
      split; [|discriminate].
      split; [intros _; split; [done | by apply Hkeys] | done]. }
    destruct (consolidate_after_reading w (to_path input_folder) output_file
                Hne Hk) as (df & Hex & Hret).
    fold self in Hex, Hret. rewrite Hret.
    split.
    { split; [by destruct (save_excel_ok w df output_file)|].
      intros E; by destruct Hne. }
    split.
    + split; [by destruct (save_excel_ok w df output_file)|].
      intros [_ Hall]. by apply Hkeys in Hall.
    + destruct (save_excel_ok w df output_file) eqn:Hsave; [done|].
      intros _. exists df. split; [exact Hex | exact Hsave].
Qed.

(** X14. When the front end reports completion for a directory whose
    discovered files have pairwise distinct relative paths, the table
    written is the one a single call of [consolidate] on a fresh engine
    exports, although the front end has read every file itself before
    that call; the export completed; and the numbers in the message are
    the number of discovered files, which is the number of data rows, and
    the number of key columns. *)
Theorem front_end_completed (es : list (string * Entry))
    (sheets : Path -> option Sheet) (save : DataFrame -> string -> bool)
    (it : SetIter) (to_path : string -> Path)
    (input_folder output_file : string) (n k : nat) (out : string) :
  let w := mkWorld (EDir es) sheets save it in
  let self := init (to_path input_folder) in
  NoDup (map (_get_relative_path self) (_scan_files w self)) ->
  start_consolidation (Some (EDir es)) sheets save it to_path
                      input_folder output_file = Completed n k out ->
  out = output_file
  /\ exists df,
       exported (consolidate w self output_file) = Some df
       /\ save df output_file = true
       /\ n = length (_scan_files w self)
       /\ n = length (df_data df)
       /\ k = length (tail (df_columns df)).
Proof.
  intros w self Hnd. unfold start_consolidation.
  case_decide; [done|]. unfold new_engine. simpl.
  change (mkEngine (to_path input_folder) ∅ [] ∅) with self. fold w.
  destruct (_scan_files w self) as [|f files] eqn:Hs; [done|].
  rewrite <- Hs in *.
  case_decide as Hk; [done|].
  pose proof (consolidate_reread w (to_path input_folder) output_file Hnd)
    as Hre. fold self in Hre. rewrite Hre. clear Hre.
  pose proof (consolidate_files_spec w self (_scan_files w self) output_file)
    as Hspec. cbv zeta in Hspec. unfold consolidate. rewrite Hspec. clear Hspec.
  rewrite decide_False by (by rewrite Hs). rewrite decide_False by done.
  simpl. destruct (save _ _) eqn:Hsave; [|done].
  intros [= <- <- <-]. split; [done|].
  eexists. split; [done|]. split; [exact Hsave|]. simpl.
  fold self. rewrite (read_all_fresh w (to_path input_folder)) by done.
  unfold rows_of. rewrite !length_map. split; [done|]. split; [done|].
  unfold size, set_size. simpl. by rewrite (Permutation_length (sorted_perm _)).
Qed.

Lemma front_end_completed_witness :
  exists df,
    exported (consolidate Samples.world_e (init ["data"]) "out.xlsx") = Some df
    /\ 2 = length (df_data df)
    /\ 2 = length (tail (df_columns df)).
Proof.
  destruct (front_end_completed
              [("bad.xlsx", EFile);
               ("sub", EDir [("good.XLS", EFile); ("~$good.XLS", EFile);
                             ("notes.txt", EFile)])]
              (read_excel Samples.world_e) (fun _ _ => true)
              Samples.elements_iter (fun _ => ["data"])
              "data" "out.xlsx" 2 2 "out.xlsx")
    as (_ & df & H1 & _ & _ & H2 & H3).
  - apply (bool_decide_unpack _). vm_compute. exact I.
  - vm_compute. reflexivity.
  - exists df. split; [exact H1|]. split; [exact H2 | exact H3].
Defined.

(** ** The accumulators *)

(** X15. After a call of [consolidate] on a fresh engine, over files with
    pairwise distinct relative paths, the three accumulators agree: no
    relative path occurs twice in the file data; the key universe is the
    union of the key sets of the stored mappings; and every stored key
    list belongs to a file of the file data, has no repetition and lists
    exactly the keys of that file's mapping. *)
Theorem accumulators_agree (w : World) (p : Path) (output_file : string) :
  NoDup (map (_get_relative_path (init p)) (_scan_files w (init p))) ->
  let self' := engine (consolidate w (init p) output_file) in
  NoDup (map fst (file_data self'))
  /\ (forall k,
        k ∈ all_keys self' <->
        exists rp data, (rp, data) ∈ file_data self' /\ k ∈ dom data)
  /\ (forall rp key_order,
        file_order self' !! rp = Some key_order ->
        exists data,
          (rp, data) ∈ file_data self' /\ NoDup key_order
          /\ forall k, k ∈ key_order <-> k ∈ dom data).
Proof.
  intros Hnd self'. subst self'. unfold consolidate.
  pose proof (consolidate_files_spec w (init p) (_scan_files w (init p))
                output_file) as Hspec. cbv zeta in Hspec.
  rewrite Hspec. clear Hspec.
  set (files := _scan_files w (init p)) in *.
  set (S1 := foldl (read_one w) (init p) files).
  assert (engine (if decide (files = []) then mkOutcome (init p) None false
                  else if decide (all_keys S1 = ∅)
                  then mkOutcome S1 None false
                  else mkOutcome S1
                         (Some (mkDataFrame
                            ("Source File" :: PyStr.sorted (elements (all_keys S1)))
                            (rows_of (PyStr.sorted (elements (all_keys S1)))
                                     (file_data S1))))
                         (save_excel_ok w
                            (mkDataFrame
                               ("Source File" :: PyStr.sorted (elements (all_keys S1)))
                               (rows_of (PyStr.sorted (elements (all_keys S1)))
                                        (file_data S1)))
                            output_file)) = S1) as ->.
  { case_decide as Hs; [by unfold S1; rewrite Hs | by case_decide]. }
  assert (file_data S1 =
          map (fun f => (_get_relative_path (init p) f, (record_of w f).1))
              files) as Hfd by (by apply read_all_fresh).
  rewrite Hfd. split; [|split].
  - rewrite map_map. exact Hnd.
  - intros k. unfold S1. rewrite read_all_keys. split.
    + intros [Hk|(f & Hf & Hk)]; [by apply not_elem_of_empty in Hk|].
      exists (_get_relative_path (init p) f), (record_of w f).1.
      split; [|done]. apply list_elem_of_fmap. by exists f.
    + intros (rp & data & Hin & Hk). right.
      apply list_elem_of_fmap in Hin as (f & [= -> ->] & Hf). eauto.
  - intros rp o Ho.
    destruct (read_all_file_order w (init p) files rp o Ho)
      as [Hinit|(g & Hg & <- & [df Hr])].
    { unfold init in Hinit. simpl in Hinit. by rewrite lookup_empty in Hinit. }
    unfold S1 in Ho.
    rewrite (read_all_file_order_lookup w p (init p) files g df) in Ho;
      [|done..].
    injection Ho as <-. exists (record_of w g).1. split.
    { apply list_elem_of_fmap. by exists g. }
    unfold record_of. rewrite Hr. simpl.
    by destruct (extract_inv df) as (_ & ? & ? & _).
Qed.

Lemma accumulators_agree_witness :
  let self' := engine (consolidate Samples.world_e (init ["data"]) "out.xlsx") in
  NoDup (map fst (file_data self'))
  /\ (forall k,
        k ∈ all_keys self' <->
        exists rp data, (rp, data) ∈ file_data self' /\ k ∈ dom data)
  /\ (forall rp key_order,
        file_order self' !! rp = Some key_order ->
        exists data,
          (rp, data) ∈ file_data self' /\ NoDup key_order
          /\ forall k, k ∈ key_order <-> k ∈ dom data).
Proof.
  apply (accumulators_agree Samples.world_e ["data"] "out.xlsx").
  apply (bool_decide_unpack _). vm_compute. exact I.
Defined.

(** X16. The stored key lists never reach the output: whatever
    [self.file_order] holds when [consolidate] is called, the exported
    table, the returned value, and the key universe and file data left in
    the engine are the same. *)
Theorem file_order_irrelevant (w : World) (dp : Path) (keys : gset string)
    (fd : Dict (gmap string string)) (fo1 fo2 : gmap string (list string))
    (output_file : string) :
  let o1 := consolidate w (mkEngine dp keys fd fo1) output_file in
  let o2 := consolidate w (mkEngine dp keys fd fo2) output_file in
  exported o1 = exported o2
  /\ returned o1 = returned o2
  /\ all_keys (engine o1) = all_keys (engine o2)
  /\ file_data (engine o1) = file_data (engine o2).
Proof.
  intros o1 o2. subst o1 o2. unfold consolidate.
  change (_scan_files w (mkEngine dp keys fd fo2))
    with (_scan_files w (mkEngine dp keys fd fo1)).
  set (files := _scan_files w (mkEngine dp keys fd fo1)).
  rewrite !consolidate_files_spec. cbv zeta.
  assert (all_keys (foldl (read_one w) (mkEngine dp keys fd fo1) files)
          = all_keys (foldl (read_one w) (mkEngine dp keys fd fo2) files))
    as Hk.
  { apply set_eq. intros k. by rewrite !read_all_keys. }
  assert (file_data (foldl (read_one w) (mkEngine dp keys fd fo1) files)
          = file_data (foldl (read_one w) (mkEngine dp keys fd fo2) files))
    as Hd.
  { by rewrite !read_all_file_data. }
  rewrite Hk, Hd. case_decide; [done|]. by case_decide.
Qed.
